(** * Marketing-Budget-Trainer: the answer-evaluation and scoring engine

A shallow embedding of the two evaluators of the trainer,
[evaluateAllocation] (src/components/BudgetPractice.tsx) and
[evaluateAnswers] with [calculateDeviation]
(src/components/ProjectionBuilder.tsx), and the properties the
specification states about them.

Numbers.  A JavaScript [number] is modelled by the type [number] below:
a finite value carried as a rational, the two infinities and NaN.  Zero
is unsigned; the special values follow IEEE 754 and ECMAScript
([0/0 = NaN], [x/0 = ±Infinity], every comparison with NaN is false,
[Math.max] and [Math.round] propagate NaN).

Arithmetic comes in two layers.  The operations of [JS] are exact on
finite values (no binary64 rounding, no overflow); the evaluators of
[BudgetPractice] and [ProjectionBuilder] are written with them, over
records modelled as [gmap string Q].  The operations of [Binary64] round
every result to the nearest double, as the program does, and overflow to
an infinity; the evaluators of [BudgetPractice64] and
[ProjectionBuilder64] are written with them, over answer keys given as
their entries in property order, the order in which the program adds.
What is stated about the value of a score, of a deviation or of a
feedback string is stated on the second layer.

The records read by the evaluators ([Record<string, number>] decoded
from jsonb columns, or built by the caller through
[parseFloat(value) || 0] under the gate [total === 100]) hold finite
numbers. *)

From Stdlib Require Import QArith Qabs Qround Lqa ZArith Ascii String.
From stdpp Require Import gmap strings list fin_maps pretty.

Local Open Scope string_scope.
Local Open Scope Q_scope.

(** ** JavaScript numbers *)

Module JS.

Inductive number : Type :=
  | Fin (q : Q)
  | PInf
  | NInf
  | NaN.

(** Sign of a finite value, used where an infinity is produced. *)
Definition signed_inf (c : comparison) : number :=
  match c with
  | Gt => PInf
  | Lt => NInf
  | Eq => NaN
  end.

Definition flip_inf (x : number) : number :=
  match x with
  | PInf => NInf
  | NInf => PInf
  | other => other
  end.

Definition neg (x : number) : number :=
  match x with
  | Fin q => Fin (- q)
  | other => flip_inf other
  end.

(** [x + y] *)
Definition add (x y : number) : number :=
  match x, y with
  | NaN, _ | _, NaN => NaN
  | Fin a, Fin b => Fin (a + b)
  | PInf, NInf | NInf, PInf => NaN
  | PInf, _ | _, PInf => PInf
  | NInf, _ | _, NInf => NInf
  end.

(** [x - y] *)
Definition sub (x y : number) : number := add x (neg y).

(** [x * y]: an infinity times zero is NaN, otherwise the signs multiply. *)
Definition mul (x y : number) : number :=
  match x, y with
  | NaN, _ | _, NaN => NaN
  | Fin a, Fin b => Fin (a * b)
  | Fin a, PInf | PInf, Fin a => signed_inf (a ?= 0)
  | Fin a, NInf | NInf, Fin a => signed_inf (0 ?= a)
  | PInf, PInf | NInf, NInf => PInf
  | PInf, NInf | NInf, PInf => NInf
  end.

(** [x / y]: [0/0] and [∞/∞] are NaN, a non-zero finite value over zero is
    an infinity of its sign, a finite value over an infinity is zero. *)
Definition div (x y : number) : number :=
  match x, y with
  | NaN, _ | _, NaN => NaN
  | Fin a, Fin b => if Qeq_bool b 0 then signed_inf (a ?= 0) else Fin (a / b)
  | Fin _, (PInf | NInf) => Fin 0
  | PInf, Fin b => if Qle_bool 0 b then PInf else NInf
  | NInf, Fin b => if Qle_bool 0 b then NInf else PInf
  | (PInf | NInf), (PInf | NInf) => NaN
  end.

(** [Math.abs(x)] *)
Definition Math_abs (x : number) : number :=
  match x with
  | Fin q => Fin (Qabs q)
  | PInf | NInf => PInf
  | NaN => NaN
  end.

(** The order of two numbers, [None] when one of them is NaN. *)
Definition compare (x y : number) : option comparison :=
  match x, y with
  | NaN, _ | _, NaN => None
  | Fin a, Fin b => Some (a ?= b)
  | PInf, PInf | NInf, NInf => Some Eq
  | PInf, _ | _, NInf => Some Gt
  | NInf, _ | _, PInf => Some Lt
  end.

(** [x === y] *)
Definition strict_eq (x y : number) : bool :=
  match compare x y with Some Eq => true | _ => false end.

(** [x <= y] *)
Definition le (x y : number) : bool :=
  match compare x y with Some (Lt | Eq) => true | _ => false end.

(** [x < y] *)
Definition lt (x y : number) : bool :=
  match compare x y with Some Lt => true | _ => false end.

(** [x >= y] *)
Definition ge (x y : number) : bool :=
  match compare x y with Some (Gt | Eq) => true | _ => false end.

(** [x > y] *)
Definition gt (x y : number) : bool :=
  match compare x y with Some Gt => true | _ => false end.

(** [Math.max(x, y)]: NaN when either argument is NaN. *)
Definition Math_max (x y : number) : number :=
  match compare x y with
  | None => NaN
  | Some Lt => y
  | Some _ => x
  end.

(** [Math.round(x)]: the integer [floor(x + 0.5)]; infinities and NaN are
    returned unchanged. *)
Definition Math_round (x : number) : number :=
  match x with
  | Fin q => Fin (inject_Z (Qfloor (q + (1 # 2))))
  | other => other
  end.

(** ToBoolean on a number: [0] and NaN are falsy. *)
Definition truthy (x : number) : bool :=
  match x with
  | Fin q => negb (Qeq_bool q 0)
  | NaN => false
  | PInf | NInf => true
  end.

(** [v || 0] where [v] is a number or [undefined] (a missing property). *)
Definition or_zero (v : option number) : number :=
  match v with
  | Some x => if truthy x then x else Fin 0
  | None => Fin 0
  end.

(** Decimal digits of an integer. *)
Definition digits (z : Z) : string := pretty (Z.to_N z).

(** [x.toFixed(0)]: the sign, then the integer nearest to [|x|] (the larger
    one on a tie) in decimal digits.  For [|x| >= 10^21] ECMAScript falls back
    to the exponent notation of Number::toString; that rendering depends on
    the binary64 digits and is outside the range of this model, which keeps
    decimal digits there. *)
Definition toFixed0 (x : number) : string :=
  match x with
  | NaN => "NaN"
  | PInf => "Infinity"
  | NInf => "-Infinity"
  | Fin q =>
      if Qle_bool 0 q then digits (Qfloor (q + (1 # 2)))
      else "-" +:+ digits (Qfloor (- q + (1 # 2)))
  end.

(** Equality of numbers up to the representation of the rational. *)
Definition num_eq (x y : number) : Prop :=
  match x, y with
  | Fin a, Fin b => a == b
  | PInf, PInf | NInf, NInf | NaN, NaN => True
  | _, _ => False
  end.

#[export] Instance number_equiv : Equiv number := num_eq.

(** A finite number. *)
Definition finite (x : number) : Prop :=
  match x with Fin _ => True | _ => False end.


End JS.

Import JS.

(** [Object.entries(o)]; [Object.keys(o)] is its first projection, and
    [o[key]] for a key of that list is the second.  The entries come in the
    order of the map, not in the insertion order of the JavaScript object:
    the loops below only add to a total and store one value per key, so
    with exact addition the order is immaterial (see
    [totalDeviation_any_order]).  The evaluators on doubles, where the
    order of the additions can change the total, take the entries as a
    list in property order. *)
Definition Object_entries {A} (o : gmap string A) : list (string * A) :=
  map_to_list o.

Definition Object_keys {A} (o : gmap string A) : list string :=
  (Object_entries o).*1.

(** The length of an array as a number. *)
Definition length_number {A} (l : list A) : number :=
  Fin (inject_Z (Z.of_nat (length l))).

(** ** The allocation evaluator (BudgetPractice.tsx) *)

Module BudgetPractice.

Record EvaluationResult : Type := {
  score : number;
  messages : list string;
  channelFeedback : gmap string string
}.

(** The variables the [forEach] callback of [evaluateAllocation] updates. *)
Record Acc : Type := {
  totalDeviation : number;
  feedbackAcc : gmap string string
}.

(** The string the callback stores for one channel. *)
Definition channelMessage (userValue correctValue deviation : number) : string :=
  if strict_eq deviation (Fin 0) then
    "Perfect allocation!"
  else if le deviation (Fin 5) then
    "Very close! Minor adjustment could optimize this."
  else if le deviation (Fin 10) then
    "Consider " +:+ (if gt userValue correctValue then "decreasing" else "increasing")
      +:+ " by about " +:+ toFixed0 deviation +:+ "%."
  else
    (if gt userValue correctValue then "Over" else "Under")
      +:+ "-allocated by " +:+ toFixed0 deviation +:+ "%. This channel "
      +:+ (if gt userValue correctValue then "may be too expensive"
           else "offers better efficiency")
      +:+ ".".

(** One run of the callback, for [channel] with [correctAnswer[channel]]. *)
Definition visitChannel (userAnswer : gmap string Q) (acc : Acc)
    (entry : string * Q) : Acc :=
  let channel := entry.1 in
  let userValue := or_zero (Fin <$> userAnswer !! channel) in
  let correctValue := Fin entry.2 in
  let deviation := Math_abs (sub userValue correctValue) in
  {| totalDeviation := add (totalDeviation acc) deviation;
     feedbackAcc :=
       <[channel := channelMessage userValue correctValue deviation]>
         (feedbackAcc acc) |}.

(** The top-level message chosen from a score. *)
Definition scoreMessage (score : number) : string :=
  if ge score (Fin 90) then
    "Excellent work! Your allocation is nearly optimal."
  else if ge score (Fin 75) then
    "Good job! A few tweaks could improve efficiency."
  else if ge score (Fin 60) then
    "Not bad, but there is room for improvement in channel selection."
  else
    "Keep practicing! Consider the relative efficiency of each channel.".

Definition evaluateAllocation (userAnswer correctAnswer : gmap string Q)
    : EvaluationResult :=
  let acc :=
    foldl (visitChannel userAnswer)
      {| totalDeviation := Fin 0; feedbackAcc := ∅ |}
      (Object_entries correctAnswer) in
  let avgDeviation :=
    div (totalDeviation acc) (length_number (Object_keys correctAnswer)) in
  let score := Math_max (Fin 0) (sub (Fin 100) (mul avgDeviation (Fin 2))) in
  let messages := [scoreMessage score] in
  {| score := Math_round score;
     messages := messages;
     channelFeedback := feedbackAcc acc |}.

End BudgetPractice.

(** ** The projection evaluator (ProjectionBuilder.tsx) *)

Module ProjectionBuilder.

(** One entry of [results]. *)
Record MetricResult : Type := {
  correct : number;
  user : number;
  isCorrect : bool;
  deviation : number
}.

(** The value given to [setFeedback]. *)
Record Feedback : Type := {
  score : number;
  results : gmap string MetricResult
}.

Definition calculateDeviation (userValue correctValue : number) : number :=
  if strict_eq correctValue (Fin 0) then
    if strict_eq userValue (Fin 0) then Fin 0 else Fin 100
  else
    mul (Math_abs (div (sub userValue correctValue) correctValue)) (Fin 100).

(** What the callback of [evaluateAnswers] adds to [totalScore]. *)
Definition scoreIncrement (deviation : number) : number :=
  if strict_eq deviation (Fin 0) then Fin 100
  else if le deviation (Fin 5) then Fin 95
  else if le deviation (Fin 10) then Fin 85
  else if le deviation (Fin 20) then Fin 70
  else if le deviation (Fin 30) then Fin 50
  else Fin 25.

(** The variables the [forEach] callback of [evaluateAnswers] updates. *)
Record Acc : Type := {
  resultsAcc : gmap string MetricResult;
  totalScore : number
}.

Section Evaluate.

(** The built-in [parseFloat]; it is applied to [userAnswers[key]], a
    missing property being converted to the string of [undefined]. *)
Variable parseFloat : string -> number.

Definition parsedAnswer (userAnswers : gmap string string) (key : string)
    : number :=
  parseFloat (default "undefined" (userAnswers !! key)).

(** One run of the callback, for the entry [[key, correctValue]]. *)
Definition visitMetric (userAnswers : gmap string string) (acc : Acc)
    (entry : string * Q) : Acc :=
  let key := entry.1 in
  let correctValue := Fin entry.2 in
  let userValue := or_zero (Some (parsedAnswer userAnswers key)) in
  let deviation := calculateDeviation userValue correctValue in
  let isCorrect := le deviation (Fin 10) in
  {| resultsAcc :=
       <[key := {| correct := correctValue; user := userValue;
                   isCorrect := isCorrect; deviation := deviation |}]>
         (resultsAcc acc);
     totalScore := add (totalScore acc) (scoreIncrement deviation) |}.

(** [evaluateAnswers] for a loaded scenario with answer key [answers]: the
    feedback it computes and stores.  (The progress row it inserts and the
    failed-attempt counter are outside the evaluator proper.) *)
Definition evaluateAnswers (userAnswers : gmap string string)
    (answers : gmap string Q) : Feedback :=
  let acc :=
    foldl (visitMetric userAnswers)
      {| resultsAcc := ∅; totalScore := Fin 0 |}
      (Object_entries answers) in
  let avgScore :=
    Math_round (div (totalScore acc) (length_number (Object_keys answers))) in
  {| score := avgScore; results := resultsAcc acc |}.

End Evaluate.

(** A [parseFloat] for the strings [[+-]digits[.digits]]: it reads the
    longest such prefix and is NaN when there is no digit.  (Leading white
    space, exponents and [Infinity] are not read.) *)
Definition digitValue (c : ascii) : option Z :=
  let n := Z.of_N (N_of_ascii c) in
  if ((48 <=? n) && (n <=? 57))%Z then Some (n - 48)%Z else None.

Fixpoint readDigits (s : string) (value : Z) (count : nat) : Z * nat * string :=
  match s with
  | String c rest =>
      match digitValue c with
      | Some d => readDigits rest (10 * value + d)%Z (S count)
      | None => (value, count, s)
      end
  | EmptyString => (value, count, s)
  end.

Definition readUnsigned (s : string) : option Q :=
  let '(whole, n1, rest) := readDigits s 0%Z 0%nat in
  let '(all, n2, _) :=
    match rest with
    | String "."%char rest' => readDigits rest' whole 0%nat
    | _ => (whole, 0%nat, rest)
    end in
  match n1, n2 with
  | O, O => None
  | _, _ => Some (inject_Z all / inject_Z (10 ^ Z.of_nat n2))
  end.

Definition parseFloat_decimal (s : string) : number :=
  let '(negative, body) :=
    match s with
    | String "-"%char rest => (true, rest)
    | String "+"%char rest => (false, rest)
    | _ => (false, s)
    end in
  match readUnsigned body with
  | Some q => Fin (Qred (if negative then - q else q))
  | None => NaN
  end.

End ProjectionBuilder.

(** ** The specification's formulas *)

Definition sumQ (l : list Q) : Q := foldr Qplus 0 l.


Definition Qlt_bool (a b : Q) : bool := negb (Qle_bool b a).

Module AllocationSpec.

(** A channel absent from the user's submission is treated as 0. *)
Definition userValue (userAnswer : gmap string Q) (channel : string) : Q :=
  default 0 (userAnswer !! channel).

(** [|userValue - correctValue|], in percentage points. *)
Definition deviation (userAnswer : gmap string Q) (entry : string * Q) : Q :=
  Qabs (userValue userAnswer entry.1 - entry.2).

(** The deviations summed over the channels of the answer key. *)
Definition totalDeviation (userAnswer answerKey : gmap string Q) : Q :=
  sumQ (deviation userAnswer <$> map_to_list answerKey).

Definition avgDeviation (userAnswer answerKey : gmap string Q) : number :=
  div (Fin (totalDeviation userAnswer answerKey))
      (Fin (inject_Z (Z.of_nat (size answerKey)))).

(** [100 - avgDeviation * 2] *)
Definition penalised (userAnswer answerKey : gmap string Q) : number :=
  sub (Fin 100) (mul (avgDeviation userAnswer answerKey) (Fin 2)).

(** [max(0, 100 - avgDeviation * 2)], before rounding. *)
Definition unroundedScore (userAnswer answerKey : gmap string Q) : number :=
  Math_max (Fin 0) (penalised userAnswer answerKey).

(** The four score bands, mutually exclusive. *)
Definition bandMessage (score : number) : string :=
  if ge score (Fin 90) then
    "Excellent work! Your allocation is nearly optimal."
  else if ge score (Fin 75) && lt score (Fin 90) then
    "Good job! A few tweaks could improve efficiency."
  else if ge score (Fin 60) && lt score (Fin 75) then
    "Not bad, but there is room for improvement in channel selection."
  else
    "Keep practicing! Consider the relative efficiency of each channel.".

(** The per-channel feedback, by deviation band; [N] is the deviation
    rounded to an integer. *)
Definition feedback (userValue correctValue : Q) : string :=
  let d := Qabs (userValue - correctValue) in
  let N := digits (Qfloor (d + (1 # 2))) in
  let over := Qlt_bool correctValue userValue in
  if Qeq_bool d 0 then
    "Perfect allocation!"
  else if Qlt_bool 0 d && Qle_bool d 5 then
    "Very close! Minor adjustment could optimize this."
  else if Qlt_bool 5 d && Qle_bool d 10 then
    if over then "Consider decreasing by about " +:+ N +:+ "%."
    else "Consider increasing by about " +:+ N +:+ "%."
  else
    if over then
      "Over-allocated by " +:+ N +:+ "%. This channel may be too expensive."
    else
      "Under-allocated by " +:+ N +:+ "%. This channel offers better efficiency.".

End AllocationSpec.

Module ProjectionSpec.

(** The deviation in percent: special-cased at [correctValue == 0],
    otherwise [|userValue - correctValue| / |correctValue| * 100]. *)
Definition deviationPercent (userValue correctValue : number) : number :=
  if strict_eq correctValue (Fin 0) then
    if strict_eq userValue (Fin 0) then Fin 0 else Fin 100
  else
    mul (div (Math_abs (sub userValue correctValue)) (Math_abs correctValue))
        (Fin 100).

(** The step function 0→100, (0,5]→95, (5,10]→85, (10,20]→70, (20,30]→50,
    else→25. *)
Definition band (d : number) : Q :=
  if strict_eq d (Fin 0) then 100
  else if lt (Fin 0) d && le d (Fin 5) then 95
  else if lt (Fin 5) d && le d (Fin 10) then 85
  else if lt (Fin 10) d && le d (Fin 20) then 70
  else if lt (Fin 20) d && le d (Fin 30) then 50
  else 25.

(** The deviation of the metric of an entry of the answer key, for the
    answers typed by the user, and its contribution to the total. *)
Definition metricDeviation (parseFloat : string -> number)
    (userAnswers : gmap string string) (entry : string * Q) : number :=
  ProjectionBuilder.calculateDeviation
    (or_zero (Some (ProjectionBuilder.parsedAnswer parseFloat userAnswers entry.1)))
    (Fin entry.2).


End ProjectionSpec.

(** ** The concrete cases of the specification *)

Module Cases.

Definition answerKey1 : gmap string Q :=
  <["Google Ads" := 50]> (<["LinkedIn Ads" := 30]> (<["Email Marketing" := 20]> ∅)).

Definition userAnswer2 : gmap string Q :=
  <["Google Ads" := 60]> (<["LinkedIn Ads" := 25]> (<["Email Marketing" := 15]> ∅)).


(** Two channels, each 5.25 points off an answer key of 50 and 50, the
    submission summing to 100. *)
Definition userAnswerHalf : gmap string Q :=
  <["Google Ads" := 55.25]> (<["LinkedIn Ads" := 44.75]> ∅).


Definition answers3 : gmap string Q :=
  <["CAC" := 50]> (<["LTV" := 90]> (<["ROI" := 0.8]> (<["ROAS" := 1.8]> ∅))).





End Cases.

(** ** The components around the evaluators *)

(** The records of lib/supabase.  ([id] and [completed_at] of a progress row
    are filled in by the database and never set by the components.) *)
Module BudgetScenario.

Record t : Type := {
  id : string;
  level : string;
  title : string;
  description : string;
  total_budget : Q;
  goal : string;
  channels : list string;
  answer_key : gmap string Q;
  created_at : string
}.

End BudgetScenario.

Module ProjectionScenario.

Record t : Type := {
  id : string;
  title : string;
  description : string;
  metrics : gmap string Q;
  answers : gmap string Q;
  hints : gmap string string;
  created_at : string
}.

End ProjectionScenario.

Inductive ScenarioType : Type := budget | projection.

Module UserProgress.

Record t : Type := {
  user_name : string;
  scenario_type : ScenarioType;
  scenario_id : string;
  score : number;
  user_answer : gmap string number;
  attempt_number : nat
}.

End UserProgress.

(** [Object.values(o)] *)
Definition Object_values {A} (o : gmap string A) : list A :=
  (Object_entries o).*2.

(** [array.findIndex(p)]: the index of the first element that satisfies
    [p], or [-1]. *)
Fixpoint findIndex_from {A} (p : A -> bool) (l : list A) (i : Z) : Z :=
  match l with
  | [] => (-1)%Z
  | x :: rest => if p x then i else findIndex_from p rest (i + 1)%Z
  end.

Definition Array_findIndex {A} (p : A -> bool) (l : list A) : Z :=
  findIndex_from p l 0%Z.

(** [array[i]], [None] standing for [undefined]. *)
Definition Array_at {A} (l : list A) (i : Z) : option A :=
  if (i <? 0)%Z then None else l !! Z.to_nat i.

(** [parseFloat(value) || 0] *)
Definition parseOrZero (parseFloat : string -> number) (value : string) : number :=
  or_zero (Some (parseFloat value)).

(** The record of coerced values both components build with
    [Object.entries(o).forEach(([key, value]) => r[key] = parseFloat(value) || 0)]. *)
Definition numericRecord (parseFloat : string -> number)
    (o : gmap string string) : gmap string number :=
  foldl (fun r entry => <[entry.1 := parseOrZero parseFloat entry.2]> r) ∅
    (Object_entries o).

(** The finite entries of a record of numbers.  [evaluateAllocation] is
    modelled on finite values; it is called behind the gate [total === 100],
    which a total that is not finite does not pass. *)
Definition finiteValues (o : gmap string number) : gmap string Q :=
  omap (fun x => match x with Fin q => Some q | _ => None end) o.

(** The component of BudgetPractice.tsx: its state, the rows it sends to the
    [user_progress] table and the alerts it raises.  Each handler runs to its
    end before the next event. *)
Module BudgetPracticeComponent.

Record State : Type := {
  level : option string;
  scenarios : list BudgetScenario.t;
  currentScenario : option BudgetScenario.t;
  allocations : gmap string string;
  feedback : option BudgetPractice.EvaluationResult;
  loading : bool;
  attemptNumber : nat;
  progressRows : list UserProgress.t;
  alerts : list string
}.

(** The record with the empty string for every channel, as built by
    [selectScenario] and [tryAgain]. *)
Definition emptyAllocations (channels : list string) : gmap string string :=
  foldl (fun r channel => <[channel := ""]> r) ∅ channels.

Definition selectScenario (scenario : BudgetScenario.t) (st : State) : State :=
  {| level := level st;
     scenarios := scenarios st;
     currentScenario := Some scenario;
     allocations := emptyAllocations (BudgetScenario.channels scenario);
     feedback := None;
     loading := loading st;
     attemptNumber := 1;
     progressRows := progressRows st;
     alerts := alerts st |}.

(** [loadScenarios], given the answer of the query: [None] for an error or
    no data. *)
Definition loadScenarios (response : option (list BudgetScenario.t))
    (st : State) : State :=
  let st1 :=
    match response with
    | Some data =>
        let st' :=
          {| level := level st; scenarios := data;
             currentScenario := currentScenario st;
             allocations := allocations st; feedback := feedback st;
             loading := true; attemptNumber := attemptNumber st;
             progressRows := progressRows st; alerts := alerts st |} in
        match data with
        | first :: _ => selectScenario first st'
        | [] => st'
        end
    | None => st
    end in
  {| level := level st1; scenarios := scenarios st1;
     currentScenario := currentScenario st1;
     allocations := allocations st1; feedback := feedback st1;
     loading := false; attemptNumber := attemptNumber st1;
     progressRows := progressRows st1; alerts := alerts st1 |}.

(** The [onChange] handler of the input of [channel]. *)
Definition setAllocation (channel value : string) (st : State) : State :=
  {| level := level st; scenarios := scenarios st;
     currentScenario := currentScenario st;
     allocations := <[channel := value]> (allocations st);
     feedback := feedback st; loading := loading st;
     attemptNumber := attemptNumber st;
     progressRows := progressRows st; alerts := alerts st |}.

Definition tryAgain (st : State) : State :=
  let resetAllocations :=
    match currentScenario st with
    | Some scenario => emptyAllocations (BudgetScenario.channels scenario)
    | None => ∅
    end in
  {| level := level st; scenarios := scenarios st;
     currentScenario := currentScenario st;
     allocations := resetAllocations;
     feedback := None; loading := loading st;
     attemptNumber := attemptNumber st + 1;
     progressRows := progressRows st; alerts := alerts st |}.

(** [scenarios.findIndex((s) => s.id === currentScenario?.id)] *)
Definition currentIndex (st : State) : Z :=
  Array_findIndex
    (fun s =>
       match currentScenario st with
       | Some current =>
           bool_decide (BudgetScenario.id s = BudgetScenario.id current)
       | None => false
       end)
    (scenarios st).

(** [nextScenario]; [None] stands for the TypeError of [selectScenario]
    applied to [undefined]. *)
Definition nextScenario (st : State) : option State :=
  if (currentIndex st <? Z.of_nat (length (scenarios st)) - 1)%Z then
    match Array_at (scenarios st) (currentIndex st + 1) with
    | Some scenario => Some (selectScenario scenario st)
    | None => None
    end
  else Some st.

Section Handlers.

Variable parseFloat : string -> number.
Variable userName : string.

Definition getTotalAllocation (st : State) : number :=
  foldl (fun sum val => add sum (parseOrZero parseFloat val)) (Fin 0)
    (Object_values (allocations st)).

(** [isValid] of the render: the submit button is disabled without it. *)
Definition isValid (st : State) : bool :=
  strict_eq (getTotalAllocation st) (Fin 100).

Definition validateAndSubmit (st : State) : State :=
  match currentScenario st with
  | None => st
  | Some scenario =>
      let total := getTotalAllocation st in
      if negb (strict_eq total (Fin 100)) then
        {| level := level st; scenarios := scenarios st;
           currentScenario := currentScenario st;
           allocations := allocations st; feedback := feedback st;
           loading := loading st; attemptNumber := attemptNumber st;
           progressRows := progressRows st;
           alerts := alerts st ++ ["Total allocation must equal 100%"] |}
      else
        let userAllocations := numericRecord parseFloat (allocations st) in
        let result :=
          BudgetPractice.evaluateAllocation (finiteValues userAllocations)
            (BudgetScenario.answer_key scenario) in
        let progress :=
          {| UserProgress.user_name := userName;
             UserProgress.scenario_type := budget;
             UserProgress.scenario_id := BudgetScenario.id scenario;
             UserProgress.score := BudgetPractice.score result;
             UserProgress.user_answer := userAllocations;
             UserProgress.attempt_number := attemptNumber st |} in
        {| level := level st; scenarios := scenarios st;
           currentScenario := currentScenario st;
           allocations := allocations st; feedback := Some result;
           loading := loading st; attemptNumber := attemptNumber st;
           progressRows := progressRows st ++ [progress];
           alerts := alerts st |}
  end.

End Handlers.

End BudgetPracticeComponent.

(** The component of ProjectionBuilder.tsx, in the same way. *)
Module ProjectionBuilderComponent.

Record State : Type := {
  scenarios : list ProjectionScenario.t;
  currentScenario : option ProjectionScenario.t;
  userAnswers : gmap string string;
  feedback : option ProjectionBuilder.Feedback;
  showHints : gmap string bool;
  loading : bool;
  attemptNumber : nat;
  failedAttempts : nat;
  progressRows : list UserProgress.t
}.

(** The record with the empty string for every metric of the answer key. *)
Definition emptyAnswers (answers : gmap string Q) : gmap string string :=
  foldl (fun r key => <[key := ""]> r) ∅ (Object_keys answers).

Definition selectScenario (scenario : ProjectionScenario.t) (st : State) : State :=
  {| scenarios := scenarios st;
     currentScenario := Some scenario;
     userAnswers := emptyAnswers (ProjectionScenario.answers scenario);
     feedback := None;
     showHints := ∅;
     loading := loading st;
     attemptNumber := 1;
     failedAttempts := 0;
     progressRows := progressRows st |}.

(** The [onChange] handler of the input of [key]. *)
Definition setUserAnswer (key value : string) (st : State) : State :=
  {| scenarios := scenarios st; currentScenario := currentScenario st;
     userAnswers := <[key := value]> (userAnswers st);
     feedback := feedback st; showHints := showHints st;
     loading := loading st; attemptNumber := attemptNumber st;
     failedAttempts := failedAttempts st; progressRows := progressRows st |}.

(** [showHints[key]] as a condition: a missing entry is falsy. *)
Definition hintShown (st : State) (key : string) : bool :=
  default false (showHints st !! key).

Definition toggleHint (key : string) (st : State) : State :=
  {| scenarios := scenarios st; currentScenario := currentScenario st;
     userAnswers := userAnswers st; feedback := feedback st;
     showHints := <[key := negb (hintShown st key)]> (showHints st);
     loading := loading st; attemptNumber := attemptNumber st;
     failedAttempts := failedAttempts st; progressRows := progressRows st |}.

Definition tryAgain (st : State) : State :=
  let resetAnswers :=
    match currentScenario st with
    | Some scenario => emptyAnswers (ProjectionScenario.answers scenario)
    | None => ∅
    end in
  {| scenarios := scenarios st; currentScenario := currentScenario st;
     userAnswers := resetAnswers; feedback := None;
     showHints := showHints st; loading := loading st;
     attemptNumber := attemptNumber st + 1;
     failedAttempts := failedAttempts st; progressRows := progressRows st |}.

Definition currentIndex (st : State) : Z :=
  Array_findIndex
    (fun s =>
       match currentScenario st with
       | Some current =>
           bool_decide (ProjectionScenario.id s = ProjectionScenario.id current)
       | None => false
       end)
    (scenarios st).

Definition nextScenario (st : State) : option State :=
  if (currentIndex st <? Z.of_nat (length (scenarios st)) - 1)%Z then
    match Array_at (scenarios st) (currentIndex st + 1) with
    | Some scenario => Some (selectScenario scenario st)
    | None => None
    end
  else Some st.

(** [canShowHints] of the render. *)
Definition canShowHints (st : State) : bool :=
  (3 <=? failedAttempts st)%nat.


Inductive Event : Type :=
  | Submit
  | TryAgain
  | ToggleHint (key : string)
  | EditAnswer (key value : string).

Definition isSubmit (e : Event) : bool :=
  match e with Submit => true | _ => false end.

(** The number of submissions among the events. *)
Definition submissions (events : list Event) : nat :=
  length (List.filter isSubmit events).

Definition isTryAgain (e : Event) : bool :=
  match e with TryAgain => true | _ => false end.

(** The number of uses of "Try Again" among the events. *)
Definition retries (events : list Event) : nat :=
  length (List.filter isTryAgain events).

Section Handlers.

Variable parseFloat : string -> number.
Variable userName : string.

(** The whole of [evaluateAnswers]: the feedback of
    [ProjectionBuilder.evaluateAnswers], the progress row and the count of
    failed attempts. *)
Definition evaluateAnswers (st : State) : State :=
  match currentScenario st with
  | None => st
  | Some scenario =>
      let result :=
        ProjectionBuilder.evaluateAnswers parseFloat (userAnswers st)
          (ProjectionScenario.answers scenario) in
      let avgScore := ProjectionBuilder.score result in
      let numericAnswers := numericRecord parseFloat (userAnswers st) in
      let progress :=
        {| UserProgress.user_name := userName;
           UserProgress.scenario_type := projection;
           UserProgress.scenario_id := ProjectionScenario.id scenario;
           UserProgress.score := avgScore;
           UserProgress.user_answer := numericAnswers;
           UserProgress.attempt_number := attemptNumber st |} in
      {| scenarios := scenarios st; currentScenario := currentScenario st;
         userAnswers := userAnswers st; feedback := Some result;
         showHints := showHints st; loading := loading st;
         attemptNumber := attemptNumber st;
         failedAttempts :=
           if lt avgScore (Fin 70) then failedAttempts st + 1
           else failedAttempts st;
         progressRows := progressRows st ++ [progress] |}
  end.

(** The events of one scenario after it was selected, and the handler run
    for each. *)
Definition handle (st : State) (e : Event) : State :=
  match e with
  | Submit => evaluateAnswers st
  | TryAgain => tryAgain st
  | ToggleHint key => toggleHint key st
  | EditAnswer key value => setUserAnswer key value st
  end.

End Handlers.

End ProjectionBuilderComponent.

(** Concrete states of the components. *)
Module ComponentCases.

(** The first seeded scenario of the migration. *)
Definition saasLeadGeneration : BudgetScenario.t :=
  {| BudgetScenario.id := "scenario-1";
     BudgetScenario.level := "Basic";
     BudgetScenario.title := "SaaS Lead Generation Campaign";
     BudgetScenario.description := "";
     BudgetScenario.total_budget := 5000;
     BudgetScenario.goal := "50 qualified leads";
     BudgetScenario.channels := ["Google Ads"; "LinkedIn Ads"; "Email Marketing"];
     BudgetScenario.answer_key := Cases.answerKey1;
     BudgetScenario.created_at := "" |}.

(** The second seeded scenario. *)
Definition productLaunch : BudgetScenario.t :=
  {| BudgetScenario.id := "scenario-2";
     BudgetScenario.level := "Basic";
     BudgetScenario.title := "E-commerce Product Launch";
     BudgetScenario.description := "";
     BudgetScenario.total_budget := 3000;
     BudgetScenario.goal := "150 purchases";
     BudgetScenario.channels :=
       ["Facebook Ads"; "Instagram Ads"; "Influencer Marketing"];
     BudgetScenario.answer_key :=
       <["Facebook Ads" := 45]>
         (<["Instagram Ads" := 35]> (<["Influencer Marketing" := 20]> ∅));
     BudgetScenario.created_at := "" |}.

Definition budgetInitial : BudgetPracticeComponent.State :=
  {| BudgetPracticeComponent.level := Some "Basic";
     BudgetPracticeComponent.scenarios := [];
     BudgetPracticeComponent.currentScenario := None;
     BudgetPracticeComponent.allocations := ∅;
     BudgetPracticeComponent.feedback := None;
     BudgetPracticeComponent.loading := false;
     BudgetPracticeComponent.attemptNumber := 1;
     BudgetPracticeComponent.progressRows := [];
     BudgetPracticeComponent.alerts := [] |}.

(** Two scenarios in the list and no current scenario. *)
Definition budgetOrphan : BudgetPracticeComponent.State :=
  {| BudgetPracticeComponent.level := Some "Basic";
     BudgetPracticeComponent.scenarios := [saasLeadGeneration; productLaunch];
     BudgetPracticeComponent.currentScenario := None;
     BudgetPracticeComponent.allocations := ∅;
     BudgetPracticeComponent.feedback := None;
     BudgetPracticeComponent.loading := false;
     BudgetPracticeComponent.attemptNumber := 1;
     BudgetPracticeComponent.progressRows := [];
     BudgetPracticeComponent.alerts := [] |}.

(** After the two scenarios were loaded: the first one is selected. *)
Definition budgetLoaded : BudgetPracticeComponent.State :=
  BudgetPracticeComponent.loadScenarios
    (Some [saasLeadGeneration; productLaunch]) budgetInitial.

(** The first seeded projection scenario. *)
Definition saasTrial : ProjectionScenario.t :=
  {| ProjectionScenario.id := "projection-1";
     ProjectionScenario.title := "SaaS Trial Campaign";
     ProjectionScenario.description := "";
     ProjectionScenario.metrics := ∅;
     ProjectionScenario.answers := Cases.answers3;
     ProjectionScenario.hints := ∅;
     ProjectionScenario.created_at := "" |}.

Definition projectionInitial : ProjectionBuilderComponent.State :=
  {| ProjectionBuilderComponent.scenarios := [saasTrial];
     ProjectionBuilderComponent.currentScenario := None;
     ProjectionBuilderComponent.userAnswers := ∅;
     ProjectionBuilderComponent.feedback := None;
     ProjectionBuilderComponent.showHints := ∅;
     ProjectionBuilderComponent.loading := false;
     ProjectionBuilderComponent.attemptNumber := 1;
     ProjectionBuilderComponent.failedAttempts := 0;
     ProjectionBuilderComponent.progressRows := [] |}.


End ComponentCases.

(** ** Binary64 arithmetic, and the evaluators on doubles *)

(** The arithmetic of JavaScript rounds: the sum, difference, product and
    quotient of two doubles is the double nearest to the exact result, the
    even one on a tie, or an infinity beyond the largest double.  [round64]
    is this rounding on rationals (precision 53, least exponent -1074); the
    operations of [Binary64] are those of [JS] followed by it.  Comparisons,
    [Math.abs], [Math.max] and [Math.round] are exact on doubles and are
    those of [JS]. *)
Module Binary64.

(** The integer nearest to [n / d], the even one on a tie ([0 <= n],
    [0 < d]). *)
Definition roundHalfEven (n d : Z) : Z :=
  let q := (n / d)%Z in
  match (2 * (n mod d) ?= d)%Z with
  | Lt => q
  | Gt => (q + 1)%Z
  | Eq => if Z.even q then q else (q + 1)%Z
  end.

(** [n / d / 2^e] as a fraction. *)
Definition scaled (n d e : Z) : Z * Z :=
  if (0 <=? e)%Z then (n, (d * 2 ^ e)%Z) else ((n * 2 ^ (- e))%Z, d).

(** The integer part of the binary logarithm of [n / d]. *)
Definition log2_floor (n d : Z) : Z :=
  let l := (Z.log2 n - Z.log2 d)%Z in
  let '(N, D) := scaled n d l in
  if (D <=? N)%Z then l else (l - 1)%Z.

(** The double nearest to the positive [n / d]: a 53-bit integer times
    [2^e], with [-1074 <= e]. *)
Definition round_pos (n d : Z) : number :=
  let e := Z.max (log2_floor n d - 52) (-1074) in
  let '(N, D) := scaled n d e in
  let m := roundHalfEven N D in
  if (971 <? e)%Z || ((e =? 971)%Z && (m =? 2 ^ 53)%Z) then PInf
  else if (0 <=? e)%Z then Fin (inject_Z (m * 2 ^ e))
  else Fin (Qred (Qmake m (Z.to_pos (2 ^ (- e))))).

Definition round64 (q : Q) : number :=
  match Qred q with
  | Qmake 0 _ => Fin 0
  | Qmake (Zpos n) d => round_pos (Zpos n) (Zpos d)
  | Qmake (Zneg n) d => neg (round_pos (Zpos n) (Zpos d))
  end.

(** The rounding of the result of an operation. *)
Definition fround (x : number) : number :=
  match x with
  | Fin q => round64 q
  | other => other
  end.

Definition add (x y : number) : number := fround (JS.add x y).
Definition sub (x y : number) : number := fround (JS.sub x y).
Definition mul (x y : number) : number := fround (JS.mul x y).
Definition div (x y : number) : number := fround (JS.div x y).

(** The double written by a decimal literal, as a rational. *)
Definition double (q : Q) : Q :=
  match round64 q with
  | Fin v => v
  | _ => 0
  end.

End Binary64.

(** A record given as its entries in the order in which JavaScript
    enumerates its properties; [getProperty o key] is [o[key]]. *)
Fixpoint getProperty {A} (o : list (string * A)) (key : string) : option A :=
  match o with
  | [] => None
  | entry :: rest =>
      if decide (entry.1 = key) then Some entry.2 else getProperty rest key
  end.

(** [evaluateAllocation] on doubles.  [correctAnswer] is in property order,
    the order of the additions; [userAnswer] is only read by key. *)
Module BudgetPractice64.

Section WithToString.

(** Number::toString, to which [toFixed] hands a value of [10^21] or
    more. *)
Variable Number_toString : Q -> string.

(** [x.toFixed(0)] *)
Definition toFixed0 (x : number) : string :=
  match x with
  | NaN => "NaN"
  | PInf => "Infinity"
  | NInf => "-Infinity"
  | Fin q =>
      let magnitude := if Qle_bool 0 q then q else - q in
      let sign := if Qle_bool 0 q then "" else "-" in
      let m :=
        if Qle_bool (inject_Z (10 ^ 21)) magnitude then Number_toString magnitude
        else digits (Qfloor (magnitude + (1 # 2))) in
      sign +:+ m
  end.

Definition channelMessage (userValue correctValue deviation : number) : string :=
  if strict_eq deviation (Fin 0) then
    "Perfect allocation!"
  else if le deviation (Fin 5) then
    "Very close! Minor adjustment could optimize this."
  else if le deviation (Fin 10) then
    "Consider " +:+ (if gt userValue correctValue then "decreasing" else "increasing")
      +:+ " by about " +:+ toFixed0 deviation +:+ "%."
  else
    (if gt userValue correctValue then "Over" else "Under")
      +:+ "-allocated by " +:+ toFixed0 deviation +:+ "%. This channel "
      +:+ (if gt userValue correctValue then "may be too expensive"
           else "offers better efficiency")
      +:+ ".".

(** [correctAnswer[channel]] in an arithmetic position: a missing property
    is [undefined], which converts to NaN. *)
Definition correctValueOf (correctAnswer : list (string * Q)) (channel : string)
    : number :=
  match getProperty correctAnswer channel with
  | Some value => Fin value
  | None => NaN
  end.

(** One run of the callback of [Object.keys(correctAnswer).forEach]. *)
Definition visitChannel (userAnswer : gmap string Q)
    (correctAnswer : list (string * Q)) (acc : BudgetPractice.Acc)
    (channel : string) : BudgetPractice.Acc :=
  let userValue := or_zero (Fin <$> userAnswer !! channel) in
  let correctValue := correctValueOf correctAnswer channel in
  let deviation := Math_abs (Binary64.sub userValue correctValue) in
  {| BudgetPractice.totalDeviation :=
       Binary64.add (BudgetPractice.totalDeviation acc) deviation;
     BudgetPractice.feedbackAcc :=
       <[channel := channelMessage userValue correctValue deviation]>
         (BudgetPractice.feedbackAcc acc) |}.

Definition evaluateAllocation (userAnswer : gmap string Q)
    (correctAnswer : list (string * Q)) : BudgetPractice.EvaluationResult :=
  let acc :=
    foldl (visitChannel userAnswer correctAnswer)
      {| BudgetPractice.totalDeviation := Fin 0;
         BudgetPractice.feedbackAcc := ∅ |}
      correctAnswer.*1 in
  let avgDeviation :=
    Binary64.div (BudgetPractice.totalDeviation acc)
      (length_number correctAnswer.*1) in
  let score :=
    Math_max (Fin 0) (Binary64.sub (Fin 100) (Binary64.mul avgDeviation (Fin 2))) in
  let messages := [BudgetPractice.scoreMessage score] in
  {| BudgetPractice.score := Math_round score;
     BudgetPractice.messages := messages;
     BudgetPractice.channelFeedback := BudgetPractice.feedbackAcc acc |}.

End WithToString.

End BudgetPractice64.

(** [calculateDeviation] and [evaluateAnswers] on doubles; [answers] is in
    property order. *)
Module ProjectionBuilder64.

Definition calculateDeviation (userValue correctValue : number) : number :=
  if strict_eq correctValue (Fin 0) then
    if strict_eq userValue (Fin 0) then Fin 0 else Fin 100
  else
    Binary64.mul
      (Math_abs (Binary64.div (Binary64.sub userValue correctValue) correctValue))
      (Fin 100).

(** [x / y] that fails on a divisor equal to 0, and [calculateDeviation]
    with it in place of the division. *)
Definition checkedDiv (divide : number -> number -> number) (x y : number)
    : option number :=
  if strict_eq y (Fin 0) then None else Some (divide x y).

Definition calculateDeviation_checked (userValue correctValue : number)
    : option number :=
  if strict_eq correctValue (Fin 0) then
    Some (if strict_eq userValue (Fin 0) then Fin 0 else Fin 100)
  else
    quotient ← checkedDiv Binary64.div
                 (Binary64.sub userValue correctValue) correctValue;
    Some (Binary64.mul (Math_abs quotient) (Fin 100)).

(** The same for the exact operations of [ProjectionBuilder]. *)
Definition calculateDeviation_checked_exact (userValue correctValue : number)
    : option number :=
  if strict_eq correctValue (Fin 0) then
    Some (if strict_eq userValue (Fin 0) then Fin 0 else Fin 100)
  else
    quotient ← checkedDiv JS.div (JS.sub userValue correctValue) correctValue;
    Some (JS.mul (Math_abs quotient) (Fin 100)).

Section Evaluate.

Variable parseFloat : string -> number.

(** One run of the callback, for the entry [[key, correctValue]]. *)
Definition visitMetric (userAnswers : gmap string string)
    (acc : ProjectionBuilder.Acc) (entry : string * Q) : ProjectionBuilder.Acc :=
  let key := entry.1 in
  let correctValue := Fin entry.2 in
  let userValue :=
    or_zero (Some (ProjectionBuilder.parsedAnswer parseFloat userAnswers key)) in
  let deviation := calculateDeviation userValue correctValue in
  let isCorrect := le deviation (Fin 10) in
  {| ProjectionBuilder.resultsAcc :=
       <[key := {| ProjectionBuilder.correct := correctValue;
                   ProjectionBuilder.user := userValue;
                   ProjectionBuilder.isCorrect := isCorrect;
                   ProjectionBuilder.deviation := deviation |}]>
         (ProjectionBuilder.resultsAcc acc);
     ProjectionBuilder.totalScore :=
       Binary64.add (ProjectionBuilder.totalScore acc)
         (ProjectionBuilder.scoreIncrement deviation) |}.

Definition evaluateAnswers (userAnswers : gmap string string)
    (answers : list (string * Q)) : ProjectionBuilder.Feedback :=
  let acc :=
    foldl (visitMetric userAnswers)
      {| ProjectionBuilder.resultsAcc := ∅;
         ProjectionBuilder.totalScore := Fin 0 |}
      answers in
  let avgScore :=
    Math_round
      (Binary64.div (ProjectionBuilder.totalScore acc) (length_number answers.*1)) in
  {| ProjectionBuilder.score := avgScore;
     ProjectionBuilder.results := ProjectionBuilder.resultsAcc acc |}.

End Evaluate.

End ProjectionBuilder64.

(** The specification's formulas, with the arithmetic of doubles. *)
Module AllocationSpec64.

(** A channel absent from the user's submission is treated as 0. *)
Definition userValue (userAnswer : gmap string Q) (channel : string) : number :=
  Fin (default 0 (userAnswer !! channel)).

(** [|userValue - correctValue|] *)
Definition deviation (userAnswer : gmap string Q)
    (answerKey : list (string * Q)) (channel : string) : number :=
  Math_abs
    (Binary64.sub (userValue userAnswer channel)
       (BudgetPractice64.correctValueOf answerKey channel)).

(** The sum of the deviations, channel after channel of the answer key. *)
Definition totalDeviation (userAnswer : gmap string Q)
    (answerKey : list (string * Q)) : number :=
  foldl (fun sum channel => Binary64.add sum (deviation userAnswer answerKey channel))
    (Fin 0) answerKey.*1.

Definition avgDeviation (userAnswer : gmap string Q)
    (answerKey : list (string * Q)) : number :=
  Binary64.div (totalDeviation userAnswer answerKey)
    (Fin (inject_Z (Z.of_nat (length answerKey)))).

(** [max(0, round(100 - avgDeviation * 2))] *)
Definition score (userAnswer : gmap string Q) (answerKey : list (string * Q))
    : number :=
  Math_max (Fin 0)
    (Math_round
       (Binary64.sub (Fin 100)
          (Binary64.mul (avgDeviation userAnswer answerKey) (Fin 2)))).

(** The score before rounding, [max(0, 100 - avgDeviation * 2)]. *)
Definition unroundedScore (userAnswer : gmap string Q)
    (answerKey : list (string * Q)) : number :=
  Math_max (Fin 0)
    (Binary64.sub (Fin 100)
       (Binary64.mul (avgDeviation userAnswer answerKey) (Fin 2))).

(** The deviation rounded to an integer, in digits. *)
Definition roundedDigits (d : number) : string :=
  match d with
  | Fin q => digits (Qfloor (q + (1 # 2)))
  | _ => ""
  end.

(** The per-channel feedback, by band of the deviation [d]. *)
Definition feedback (Number_toString : Q -> string) (userValue correctValue : Q)
    : string :=
  let d := Math_abs (Binary64.sub (Fin userValue) (Fin correctValue)) in
  let over := Qlt_bool correctValue userValue in
  if strict_eq d (Fin 0) then
    "Perfect allocation!"
  else if lt (Fin 0) d && le d (Fin 5) then
    "Very close! Minor adjustment could optimize this."
  else if lt (Fin 5) d && le d (Fin 10) then
    if over then "Consider decreasing by about " +:+ roundedDigits d +:+ "%."
    else "Consider increasing by about " +:+ roundedDigits d +:+ "%."
  else
    let N := BudgetPractice64.toFixed0 Number_toString d in
    if over then
      "Over-allocated by " +:+ N +:+ "%. This channel may be too expensive."
    else
      "Under-allocated by " +:+ N +:+ "%. This channel offers better efficiency.".

End AllocationSpec64.

Module ProjectionSpec64.

(** [|userValue - correctValue| / |correctValue| * 100], special-cased at a
    correct value of 0. *)
Definition deviationPercent (userValue correctValue : number) : number :=
  if strict_eq correctValue (Fin 0) then
    if strict_eq userValue (Fin 0) then Fin 0 else Fin 100
  else
    Binary64.mul
      (Binary64.div (Math_abs (Binary64.sub userValue correctValue))
         (Math_abs correctValue))
      (Fin 100).

(** The value evaluated for a metric: [parseFloat(userAnswers[key]) || 0]. *)
Definition userValue (parseFloat : string -> number)
    (userAnswers : gmap string string) (key : string) : number :=
  or_zero (Some (ProjectionBuilder.parsedAnswer parseFloat userAnswers key)).

(** The deviation of the metric of an entry of the answer key. *)
Definition metricDeviation (parseFloat : string -> number)
    (userAnswers : gmap string string) (entry : string * Q) : number :=
  deviationPercent (userValue parseFloat userAnswers entry.1) (Fin entry.2).

(** The contributions summed metric after metric, each the step function
    [ProjectionSpec.band] of the deviation of its metric. *)
Definition totalContribution (parseFloat : string -> number)
    (userAnswers : gmap string string) (answers : list (string * Q)) : number :=
  foldl
    (fun sum entry =>
       Binary64.add sum
         (Fin (ProjectionSpec.band (metricDeviation parseFloat userAnswers entry))))
    (Fin 0) answers.

(** [round(sum(contributions) / metricCount)] *)
Definition score (parseFloat : string -> number)
    (userAnswers : gmap string string) (answers : list (string * Q)) : number :=
  Math_round
    (Binary64.div (totalContribution parseFloat userAnswers answers)
       (Fin (inject_Z (Z.of_nat (length answers))))).

(** What is reported for the metric of an entry. *)
Definition metricResult (parseFloat : string -> number)
    (userAnswers : gmap string string) (entry : string * Q)
    : ProjectionBuilder.MetricResult :=
  {| ProjectionBuilder.correct := Fin entry.2;
     ProjectionBuilder.user := userValue parseFloat userAnswers entry.1;
     ProjectionBuilder.isCorrect :=
       le (metricDeviation parseFloat userAnswers entry) (Fin 10);
     ProjectionBuilder.deviation := metricDeviation parseFloat userAnswers entry |}.

End ProjectionSpec64.

(** Concrete cases on doubles. *)
Module Cases64.

Definition answerKey1 : list (string * Q) :=
  [("Google Ads", 50); ("LinkedIn Ads", 30); ("Email Marketing", 20)].

(** The answer key of [Cases.userAnswerHalf]. *)
Definition answerKeyHalf : list (string * Q) :=
  [("Google Ads", 50); ("LinkedIn Ads", 50)].

(** The third seeded scenario and a form that passes the gate. *)
Definition answerKeyB2B : list (string * Q) :=
  [("Google Ads", 40); ("LinkedIn Ads", 35); ("Content Marketing", 15);
   ("Events & Webinars", 10)].

Definition userAnswerB2B : gmap string Q :=
  <["Google Ads" := Binary64.double 73.3]>
    (<["LinkedIn Ads" := Binary64.double 0.9]>
       (<["Content Marketing" := Binary64.double 19.2]>
          (<["Events & Webinars" := Binary64.double 6.6]> ∅))).

(** The same scenario with a third field just under 5. *)
Definition userAnswerUnder5 : gmap string Q :=
  <["Google Ads" := 40]>
    (<["LinkedIn Ads" := 35]>
       (<["Content Marketing" := Binary64.double 4.999999999999999]>
          (<["Events & Webinars" := 20]> ∅))).

Definition answers3 : list (string * Q) :=
  [("CAC", 50); ("LTV", 90); ("ROI", Binary64.double 0.8);
   ("ROAS", Binary64.double 1.8)].

(** [parseFloat] on decimal strings: the double nearest to the decimal. *)
Definition parseFloat_decimal (s : string) : number :=
  Binary64.fround (ProjectionBuilder.parseFloat_decimal s).

Definition userAnswers72 : gmap string string :=
  <["CAC" := "50"]> (<["LTV" := "90"]> (<["ROI" := "0.72"]> (<["ROAS" := "1.8"]> ∅))).

(** A printer of large numbers for the cases, none of which reaches it. *)
Definition noLargeNumber (q : Q) : string := "".

End Cases64.

(** ** Facts about numbers *)

Section NumberFacts.

Implicit Types x y : number.
Implicit Types a b : Q.

#[export] Instance num_eq_equivalence : Equivalence (≡@{number}).
Proof.
  split.
  - intros [a| | |]; cbv [equiv number_equiv num_eq]; try exact I. reflexivity.
  - intros [a| | |] [b| | |] H; cbv [equiv number_equiv num_eq] in *;
      try exact H. symmetry; exact H.
  - intros [a| | |] [b| | |] [c| | |] H1 H2;
      cbv [equiv number_equiv num_eq] in *; try exact I; try contradiction.
    etransitivity; eassumption.
Qed.

Lemma Fin_equiv a b : a == b -> Fin a ≡ Fin b.
Proof. intros H; exact H. Qed.

Lemma compare_proper x x' y y' :
  x ≡ x' -> y ≡ y' -> compare x y = compare x' y'.
Proof.
  destruct x as [a| | |], x' as [a'| | |]; simpl; try contradiction;
    destruct y as [b| | |], y' as [b'| | |]; simpl; try contradiction;
    intros Hx Hy; try reflexivity.
  cbv [equiv number_equiv num_eq] in Hx, Hy. now rewrite Hx, Hy.
Qed.

Lemma neg_proper x x' : x ≡ x' -> neg x ≡ neg x'.
Proof.
  destruct x as [a| | |], x' as [a'| | |]; simpl; try contradiction;
    intros H; try exact I.
  cbv [equiv number_equiv num_eq] in *. now rewrite H.
Qed.

Lemma add_proper x x' y y' : x ≡ x' -> y ≡ y' -> add x y ≡ add x' y'.
Proof.
  destruct x as [a| | |], x' as [a'| | |]; simpl; try contradiction;
    destruct y as [b| | |], y' as [b'| | |]; simpl; try contradiction;
    intros Hx Hy; try exact I.
  cbv [equiv number_equiv num_eq] in *. now rewrite Hx, Hy.
Qed.

Lemma sub_proper x x' y y' : x ≡ x' -> y ≡ y' -> sub x y ≡ sub x' y'.
Proof. intros Hx Hy. apply add_proper; [exact Hx | now apply neg_proper]. Qed.

Lemma mul_proper x x' y y' : x ≡ x' -> y ≡ y' -> mul x y ≡ mul x' y'.
Proof.
  destruct x as [a| | |], x' as [a'| | |]; simpl; try contradiction;
    destruct y as [b| | |], y' as [b'| | |]; simpl; try contradiction;
    intros Hx Hy; try exact I;
    cbv [equiv number_equiv] in *; simpl in Hx, Hy;
    try (rewrite Hx; reflexivity); try (rewrite Hy; reflexivity).
  simpl. now rewrite Hx, Hy.
Qed.


Lemma Math_abs_proper x x' : x ≡ x' -> Math_abs x ≡ Math_abs x'.
Proof.
  destruct x as [a| | |], x' as [a'| | |]; simpl; try contradiction;
    intros H; try exact I.
  cbv [equiv number_equiv num_eq] in *. now rewrite H.
Qed.



Lemma toFixed0_proper x x' : x ≡ x' -> toFixed0 x = toFixed0 x'.
Proof.
  destruct x as [a| | |], x' as [a'| | |];
    cbv [equiv number_equiv num_eq toFixed0]; try contradiction;
    intros H; try reflexivity.
  rewrite (Qleb_comp 0 0 (Qeq_refl 0) _ _ H).
  destruct (Qle_bool 0 a');
    [ apply (f_equal digits) | apply (f_equal (fun z => "-" +:+ digits z)) ];
    apply Qfloor_comp; now rewrite H.
Qed.




Lemma gt_proper x x' y y' : x ≡ x' -> y ≡ y' -> gt x y = gt x' y'.
Proof. intros Hx Hy. unfold gt. now rewrite (compare_proper x x' y y'). Qed.

(** The comparisons of finite numbers are those of the rationals. *)
Lemma strict_eq_Fin a b : strict_eq (Fin a) (Fin b) = true <-> a == b.
Proof.
  unfold strict_eq; simpl. rewrite Qeq_alt.
  destruct (a ?= b); intuition discriminate.
Qed.

Lemma le_Fin a b : le (Fin a) (Fin b) = true <-> a <= b.
Proof.
  unfold le; simpl. rewrite Qle_alt.
  destruct (a ?= b); intuition discriminate.
Qed.

Lemma ge_Fin a b : ge (Fin a) (Fin b) = true <-> b <= a.
Proof.
  unfold ge; simpl. rewrite (Qle_alt b a), <- (Qcompare_antisym a b).
  destruct (a ?= b); simpl; intuition discriminate.
Qed.

Lemma gt_Fin a b : gt (Fin a) (Fin b) = true <-> b < a.
Proof.
  unfold gt; simpl. rewrite (Qlt_alt b a), <- (Qcompare_antisym a b).
  destruct (a ?= b); simpl; intuition discriminate.
Qed.

Lemma le_Fin_false a b : le (Fin a) (Fin b) = false <-> b < a.
Proof.
  rewrite <- not_true_iff_false, le_Fin. split; [apply Qnot_le_lt | apply Qlt_not_le].
Qed.

Lemma strict_eq_Fin_false a b : strict_eq (Fin a) (Fin b) = false <-> ~ a == b.
Proof. now rewrite <- not_true_iff_false, strict_eq_Fin. Qed.

Lemma strict_eq_Fin_bool a b : strict_eq (Fin a) (Fin b) = Qeq_bool a b.
Proof.
  apply eq_true_iff_eq. now rewrite strict_eq_Fin, Qeq_bool_iff.
Qed.

Lemma le_Fin_bool a b : le (Fin a) (Fin b) = Qle_bool a b.
Proof.
  apply eq_true_iff_eq. now rewrite le_Fin, Qle_bool_iff.
Qed.

Lemma gt_Fin_bool a b : gt (Fin a) (Fin b) = Qlt_bool b a.
Proof.
  apply eq_true_iff_eq. unfold Qlt_bool.
  rewrite gt_Fin, negb_true_iff, <- not_true_iff_false, Qle_bool_iff.
  split; [apply Qlt_not_le | apply Qnot_le_lt].
Qed.

Lemma Qlt_bool_iff a b : Qlt_bool a b = true <-> a < b.
Proof.
  unfold Qlt_bool. rewrite negb_true_iff, <- not_true_iff_false, Qle_bool_iff.
  split; [apply Qnot_le_lt | apply Qlt_not_le].
Qed.

End NumberFacts.

(** [Math.round] commutes with the floor at zero. *)
Lemma Math_round_max_0 (x : number) :
  Math_round (Math_max (Fin 0) x) = Math_max (Fin 0) (Math_round x).
Proof.
  destruct x as [q| | |]; try reflexivity.
  unfold Math_max. cbn [compare Math_round].
  pose proof (Qfloor_resp_le 0 (q + (1 # 2))) as Hfloor.
  change (Qfloor 0) with 0%Z in Hfloor.
  destruct (0 ?= q) eqn:Hq; cbn [Math_round].
  - apply Qeq_alt in Hq.
    assert (Hz : Qfloor (q + (1 # 2)) = 0%Z).
    { rewrite <- Hq. reflexivity. }
    rewrite Hz. reflexivity.
  - apply Qlt_alt in Hq.
    assert (Hz : (0 <= Qfloor (q + (1 # 2)))%Z) by (apply Hfloor; lra).
    destruct (Z.eq_dec (Qfloor (q + (1 # 2))) 0%Z) as [-> | Hne]; [reflexivity |].
    assert (Hlt : 0 < inject_Z (Qfloor (q + (1 # 2)))).
    { change 0 with (inject_Z 0). rewrite <- Zlt_Qlt. lia. }
    rewrite (proj1 (Qlt_alt _ _) Hlt). reflexivity.
  - apply Qgt_alt in Hq.
    assert (Hz : (Qfloor (q + (1 # 2)) <= 0)%Z).
    { change 0%Z with (Qfloor (1 # 2)). apply Qfloor_resp_le. lra. }
    destruct (Z.eq_dec (Qfloor (q + (1 # 2))) 0%Z) as [-> | Hne]; [reflexivity |].
    assert (Hlt : inject_Z (Qfloor (q + (1 # 2))) < 0).
    { change 0 with (inject_Z 0). rewrite <- Zlt_Qlt. lia. }
    rewrite (proj1 (Qgt_alt _ _) Hlt). reflexivity.
Qed.

(** ** The allocation evaluator *)

Section Allocation.

Import BudgetPractice.

Variable userAnswer : gmap string Q.

(** [userAnswer[channel] || 0] is the submitted value, or 0 without one. *)
Lemma userValue_Fin (channel : string) :
  exists q, or_zero (Fin <$> userAnswer !! channel) = Fin q
            /\ q == AllocationSpec.userValue userAnswer channel.
Proof.
  unfold AllocationSpec.userValue.
  destruct (userAnswer !! channel) as [x|]; simpl.
  - destruct (Qeq_bool x 0) eqn:Hx; simpl.
    + exists 0. split; [reflexivity |]. apply Qeq_bool_iff in Hx. now rewrite Hx.
    + exists x. split; reflexivity.
  - exists 0. split; reflexivity.
Qed.

(** The deviation the callback computes for one entry. *)
Lemma visitChannel_deviation (entry : string * Q) :
  exists q d,
    or_zero (Fin <$> userAnswer !! entry.1) = Fin q
    /\ q == AllocationSpec.userValue userAnswer entry.1
    /\ Math_abs (sub (Fin q) (Fin entry.2)) = Fin d
    /\ d == AllocationSpec.deviation userAnswer entry.
Proof.
  destruct (userValue_Fin entry.1) as (q & Hq & Heq).
  exists q, (Qabs (q + - entry.2)). repeat split; try assumption.
  unfold AllocationSpec.deviation. now rewrite Heq.
Qed.

Lemma totalDeviation_foldl (l : list (string * Q)) (acc : Acc) (t : Q) :
  totalDeviation acc = Fin t ->
  exists t', totalDeviation (foldl (visitChannel userAnswer) acc l) = Fin t'
             /\ t' == t + sumQ (AllocationSpec.deviation userAnswer <$> l).
Proof.
  revert acc t. induction l as [|entry l IH]; intros acc t Hacc.
  - exists t. split; [exact Hacc |]. simpl. ring.
  - destruct (visitChannel_deviation entry) as (q & d & Hq & _ & Hd & Hdev).
    destruct (IH (visitChannel userAnswer acc entry) (t + d)) as (t' & Ht' & Hsum).
    { unfold visitChannel; cbn [totalDeviation]. now rewrite Hacc, Hq, Hd. }
    exists t'. split; [exact Ht' |].
    rewrite Hsum. cbn [fmap list_fmap sumQ foldr]. fold (sumQ (AllocationSpec.deviation userAnswer <$> l)).
    rewrite Hdev. ring.
Qed.

End Allocation.

(** Lookups in a map filled by a loop of insertions. *)
Section InsertLoop.

Context {S A B : Type}.
Variable step : S -> string * A -> S.
Variable view : S -> gmap string B.
Variable value : string * A -> B.
Hypothesis view_step :
  forall s entry, view (step s entry) = <[entry.1 := value entry]> (view s).

Lemma insert_loop_other (l : list (string * A)) (s : S) (key : string) :
  key ∉ l.*1 -> view (foldl step s l) !! key = view s !! key.
Proof.
  revert s. induction l as [|entry l IH]; intros s Hkey; [reflexivity |].
  cbn in Hkey. apply not_elem_of_cons in Hkey as [Hne Hkey].
  cbn [foldl]. rewrite (IH _ Hkey), view_step.
  now apply lookup_insert_ne.
Qed.

Lemma insert_loop_entry (l : list (string * A)) (s : S) (entry : string * A) :
  NoDup l.*1 -> entry ∈ l ->
  view (foldl step s l) !! entry.1 = Some (value entry).
Proof.
  revert s. induction l as [|e l IH]; intros s Hnd Hin.
  - now apply elem_of_nil in Hin.
  - cbn in Hnd. apply NoDup_cons in Hnd as [Hfresh Hnd].
    apply elem_of_cons in Hin as [-> | Hin]; cbn [foldl].
    + rewrite (insert_loop_other l _ _ Hfresh), view_step.
      apply lookup_insert_eq.
    + now apply IH.
Qed.

(** Over the entries of a map and from an empty map, the loop fills
    exactly the keys of the map. *)
Lemma insert_loop_map (m : gmap string A) (s : S) (key : string) :
  view s = ∅ ->
  view (foldl step s (map_to_list m)) !! key
  = (fun x => value (key, x)) <$> m !! key.
Proof.
  intros Hempty. destruct (m !! key) as [x|] eqn:Hm; cbn [fmap option_fmap option_map].
  - apply (insert_loop_entry (map_to_list m) s (key, x)).
    + apply NoDup_fst_map_to_list.
    + now apply elem_of_map_to_list.
  - rewrite insert_loop_other, Hempty; [apply lookup_empty |].
    intros Hin. apply list_elem_of_fmap in Hin as ([k x] & -> & Hin).
    apply elem_of_map_to_list in Hin. cbn in Hm. congruence.
Qed.

End InsertLoop.

(** Sums of rationals over a list. *)
Section Sums.

Context {A : Type}.
Implicit Types f g : A -> Q.

Lemma sumQ_cons f (x : A) (l : list A) :
  sumQ (f <$> x :: l) = f x + sumQ (f <$> l).
Proof. reflexivity. Qed.

Lemma sumQ_fmap_Permutation f (l l' : list A) :
  l ≡ₚ l' -> sumQ (f <$> l) == sumQ (f <$> l').
Proof.
  induction 1 as [|x l l' _ IH|x y l|l l' l'' _ IH1 _ IH2].
  - reflexivity.
  - rewrite !sumQ_cons. now rewrite IH.
  - rewrite !sumQ_cons. ring.
  - now rewrite IH1.
Qed.






End Sums.


Section AllocationResults.

Import BudgetPractice.

Variables userAnswer correctAnswer : gmap string Q.




(** The chain of [>=] tests picks the band the score lies in. *)
Lemma scoreMessage_band (x : number) :
  scoreMessage x = AllocationSpec.bandMessage x.
Proof.
  unfold scoreMessage, AllocationSpec.bandMessage, ge, lt.
  destruct x as [q| | |]; try reflexivity. cbn [compare].
  destruct (q ?= 90), (q ?= 75), (q ?= 60); reflexivity.
Qed.

(** The stored feedback of a channel of the answer key. *)
Lemma channelFeedback_lookup (channel : string) :
  channelFeedback (evaluateAllocation userAnswer correctAnswer) !! channel
  = (fun correctValue =>
       let userValue := or_zero (Fin <$> userAnswer !! channel) in
       channelMessage userValue (Fin correctValue)
         (Math_abs (sub userValue (Fin correctValue))))
    <$> correctAnswer !! channel.
Proof.
  unfold evaluateAllocation, Object_entries. cbn [channelFeedback].
  apply (insert_loop_map (visitChannel userAnswer) feedbackAcc
           (fun entry =>
              let userValue := or_zero (Fin <$> userAnswer !! entry.1) in
              channelMessage userValue (Fin entry.2)
                (Math_abs (sub userValue (Fin entry.2))))).
  - reflexivity.
  - reflexivity.
Qed.



End AllocationResults.

(** ** Rounding to the nearest double *)

Section Binary64Facts.

Import Binary64.

Lemma round64_proper (p q : Q) : p == q -> round64 p = round64 q.
Proof.
  intros H. unfold round64. now rewrite (Qred_complete _ _ H).
Qed.

(** Rounding does not depend on how the exact result is written. *)
Lemma fround_proper (x y : number) : x ≡ y -> fround x = fround y.
Proof.
  destruct x, y; cbv [equiv number_equiv num_eq]; intros H;
    try contradiction; try reflexivity.
  now apply round64_proper.
Qed.

Lemma roundHalfEven_nonneg (n d : Z) :
  (0 <= n)%Z -> (0 < d)%Z -> (0 <= roundHalfEven n d)%Z.
Proof.
  intros Hn Hd. unfold roundHalfEven.
  pose proof (Z.div_pos n d Hn Hd).
  destruct (2 * (n mod d) ?= d)%Z; [destruct (Z.even (n / d)) | |]; lia.
Qed.

Lemma scaled_pos (n d e : Z) :
  (0 < n)%Z -> (0 < d)%Z ->
  (0 <= (scaled n d e).1)%Z /\ (0 < (scaled n d e).2)%Z.
Proof.
  intros Hn Hd. unfold scaled.
  destruct (0 <=? e)%Z eqn:He; cbn [fst snd].
  - apply Z.leb_le in He. pose proof (Z.pow_pos_nonneg 2 e). nia.
  - apply Z.leb_gt in He. pose proof (Z.pow_pos_nonneg 2 (- e)). nia.
Qed.

Lemma round_pos_not_negative (n d : positive) :
  lt (round_pos (Zpos n) (Zpos d)) (Fin 0) = false.
Proof.
  unfold round_pos.
  set (e := Z.max (log2_floor (Z.pos n) (Z.pos d) - 52) (-1074)).
  destruct (scaled_pos (Z.pos n) (Z.pos d) e) as [HN HD]; [lia | lia |].
  destruct (scaled (Z.pos n) (Z.pos d) e) as [N D]. cbn [fst snd] in HN, HD.
  pose proof (roundHalfEven_nonneg N D HN HD) as Hm.
  destruct ((971 <? e)%Z || ((e =? 971)%Z && (roundHalfEven N D =? 2 ^ 53)%Z));
    [reflexivity |].
  destruct (0 <=? e)%Z eqn:He.
  - apply Z.leb_le in He.
    assert (H : 0 <= inject_Z (roundHalfEven N D * 2 ^ e)).
    { change 0 with (inject_Z 0). rewrite <- Zle_Qle.
      pose proof (Z.pow_pos_nonneg 2 e). nia. }
    unfold lt. cbn [compare].
    destruct (inject_Z (roundHalfEven N D * 2 ^ e) ?= 0) eqn:Hc; try reflexivity.
    apply Qlt_alt in Hc. lra.
  - assert (H : 0 <= Qred (roundHalfEven N D # Z.to_pos (2 ^ (- e)))).
    { rewrite Qred_correct. unfold Qle. cbn [Qnum Qden]. lia. }
    unfold lt. cbn [compare].
    destruct (Qred (roundHalfEven N D # Z.to_pos (2 ^ (- e))) ?= 0) eqn:Hc;
      try reflexivity.
    apply Qlt_alt in Hc. lra.
Qed.

(** The double nearest to a rational that is not negative is not
    negative. *)
Lemma round64_not_negative (q : Q) : 0 <= q -> lt (round64 q) (Fin 0) = false.
Proof.
  intros Hq. unfold round64.
  assert (H : 0 <= Qred q) by now rewrite Qred_correct.
  destruct (Qred q) as [[|n|n] d].
  - reflexivity.
  - apply round_pos_not_negative.
  - unfold Qle in H. cbn [Qnum Qden] in H. lia.
Qed.

Lemma fround_not_negative (x : number) :
  lt x (Fin 0) = false -> lt (fround x) (Fin 0) = false.
Proof.
  destruct x as [q| | |]; try (intros H; exact H).
  unfold lt. cbn [compare fround]. intros H. apply round64_not_negative.
  destruct (q ?= 0) eqn:Hc; try discriminate.
  - apply Qeq_alt in Hc. lra.
  - apply Qgt_alt in Hc. lra.
Qed.

Lemma neg_involutive (x : number) : neg (neg x) = x.
Proof.
  destruct x as [[n d]| | |]; try reflexivity.
  cbn [neg]. unfold Qopp. cbn [Qnum Qden]. now rewrite Z.opp_involutive.
Qed.

(** Rounding is symmetric about 0. *)
Lemma round64_opp (q : Q) : round64 (- q) = neg (round64 q).
Proof.
  unfold round64. rewrite Qred_opp.
  destruct (Qred q) as [[|n|n] d]; unfold Qopp; cbn [Qnum Qden Z.opp].
  - reflexivity.
  - reflexivity.
  - now rewrite neg_involutive.
Qed.

Lemma Math_abs_not_negative (x : number) :
  lt x (Fin 0) = false -> Math_abs x ≡ x.
Proof.
  destruct x as [q| | |]; try (intros _; exact I); try discriminate.
  unfold lt. cbn [compare Math_abs]. intros H. apply Fin_equiv, Qabs_pos.
  destruct (q ?= 0) eqn:Hc; try discriminate.
  - apply Qeq_alt in Hc. lra.
  - apply Qgt_alt in Hc. lra.
Qed.

Lemma Math_abs_neg (x : number) : Math_abs (neg x) ≡ Math_abs x.
Proof.
  destruct x as [q| | |]; try exact I.
  cbn [neg Math_abs]. apply Fin_equiv, Qabs_opp.
Qed.

Lemma Math_abs_round64 (q : Q) : Math_abs (round64 q) ≡ round64 (Qabs q).
Proof.
  destruct (Qlt_le_dec q 0) as [Hneg | Hpos].
  - assert (Hq : q == - - q) by ring.
    rewrite (round64_proper _ _ Hq), round64_opp.
    rewrite (round64_proper (Qabs q) (- q)) by (apply Qabs_neg; lra).
    etransitivity; [apply Math_abs_neg |].
    apply Math_abs_not_negative, round64_not_negative. lra.
  - rewrite (round64_proper (Qabs q) q) by (apply Qabs_pos; lra).
    apply Math_abs_not_negative, round64_not_negative. lra.
Qed.

(** [Math.abs] of a rounded result is the rounded absolute value. *)
Lemma Math_abs_fround (x : number) : Math_abs (fround x) ≡ fround (Math_abs x).
Proof.
  destruct x as [q| | |]; try exact I. apply Math_abs_round64.
Qed.

End Binary64Facts.

(** ** The allocation evaluator on doubles *)

Lemma getProperty_elem {A} (o : list (string * A)) (key : string) (value : A) :
  getProperty o key = Some value -> key ∈ o.*1.
Proof.
  induction o as [|entry o IH]; [discriminate |].
  cbn [getProperty fmap list_fmap]. destruct (decide (entry.1 = key)) as [<- | Hne].
  - intros _. apply elem_of_cons. now left.
  - intros H. apply elem_of_cons. right. apply IH, H.
Qed.

(** Lookups in a map filled by a loop over keys. *)
Section KeyLoop.

Context {S B : Type}.
Variable step : S -> string -> S.
Variable view : S -> gmap string B.
Variable value : string -> B.
Hypothesis view_step :
  forall s key, view (step s key) = <[key := value key]> (view s).

Lemma key_loop_lookup (l : list string) (s : S) (key : string) :
  view (foldl step s l) !! key
  = if decide (key ∈ l) then Some (value key) else view s !! key.
Proof.
  revert s. induction l as [|k l IH]; intros s.
  - destruct (decide (key ∈ [])) as [Hin | _]; [| reflexivity].
    now apply elem_of_nil in Hin.
  - cbn [foldl]. rewrite IH, view_step.
    destruct (decide (key ∈ l)) as [Hin | Hout].
    + rewrite decide_True by (apply elem_of_cons; now right). reflexivity.
    + destruct (decide (k = key)) as [-> | Hne].
      * rewrite decide_True by (apply elem_of_cons; now left). apply lookup_insert_eq.
      * rewrite decide_False.
        -- now apply lookup_insert_ne.
        -- intros Hin. apply elem_of_cons in Hin as [-> | Hin]; [now apply Hne | now apply Hout].
Qed.

End KeyLoop.

Section Allocation64.

Import BudgetPractice.

Variable Number_toString : Q -> string.
Variable userAnswer : gmap string Q.
Variable correctAnswer : list (string * Q).

Lemma or_zero_userValue (channel : string) :
  or_zero (Fin <$> userAnswer !! channel)
  ≡ AllocationSpec64.userValue userAnswer channel.
Proof.
  unfold AllocationSpec64.userValue.
  destruct (userAnswer !! channel) as [x|]; cbn [fmap option_fmap option_map or_zero truthy default];
    [| reflexivity].
  destruct (Qeq_bool x 0) eqn:Hx; cbn [negb]; [| reflexivity].
  apply Qeq_bool_iff in Hx. apply Fin_equiv. now symmetry.
Qed.

(** The deviation the callback computes for a channel. *)
Lemma visitChannel_deviation64 (channel : string) :
  Math_abs
    (Binary64.sub (or_zero (Fin <$> userAnswer !! channel))
       (BudgetPractice64.correctValueOf correctAnswer channel))
  = AllocationSpec64.deviation userAnswer correctAnswer channel.
Proof.
  unfold AllocationSpec64.deviation, Binary64.sub. f_equal.
  apply fround_proper, sub_proper; [apply or_zero_userValue | reflexivity].
Qed.

Lemma totalDeviation_foldl64 (l : list string) (acc : Acc) :
  totalDeviation
    (foldl (BudgetPractice64.visitChannel Number_toString userAnswer correctAnswer)
       acc l)
  = foldl
      (fun sum channel =>
         Binary64.add sum (AllocationSpec64.deviation userAnswer correctAnswer channel))
      (totalDeviation acc) l.
Proof.
  revert acc. induction l as [|channel l IH]; intros acc; [reflexivity |].
  cbn [foldl]. rewrite IH. unfold BudgetPractice64.visitChannel.
  cbn [totalDeviation]. now rewrite visitChannel_deviation64.
Qed.

(** The score is rounded from the total of the deviations in the order of
    the channels of the answer key. *)
Lemma evaluateAllocation_score64 :
  score (BudgetPractice64.evaluateAllocation Number_toString userAnswer correctAnswer)
  = AllocationSpec64.score userAnswer correctAnswer.
Proof.
  unfold BudgetPractice64.evaluateAllocation. cbn [score].
  rewrite totalDeviation_foldl64, Math_round_max_0. cbn [totalDeviation].
  unfold AllocationSpec64.score, AllocationSpec64.avgDeviation,
    AllocationSpec64.totalDeviation, length_number.
  now rewrite length_fmap.
Qed.

(** The message is the band of the score before rounding; the returned
    score is that value rounded. *)
Lemma evaluateAllocation_message64 :
  messages (BudgetPractice64.evaluateAllocation Number_toString userAnswer correctAnswer)
  = [AllocationSpec.bandMessage
       (AllocationSpec64.unroundedScore userAnswer correctAnswer)]
  /\ score (BudgetPractice64.evaluateAllocation Number_toString userAnswer correctAnswer)
     = Math_round (AllocationSpec64.unroundedScore userAnswer correctAnswer).
Proof.
  unfold BudgetPractice64.evaluateAllocation. cbn [score messages].
  rewrite totalDeviation_foldl64, scoreMessage_band. cbn [totalDeviation].
  unfold AllocationSpec64.unroundedScore, AllocationSpec64.avgDeviation,
    AllocationSpec64.totalDeviation, length_number.
  now rewrite length_fmap.
Qed.

(** The stored feedback of a channel of the answer key. *)
Lemma channelFeedback_lookup64 (channel : string) :
  channelFeedback
    (BudgetPractice64.evaluateAllocation Number_toString userAnswer correctAnswer)
    !! channel
  = if decide (channel ∈ correctAnswer.*1) then
      Some (let userValue := or_zero (Fin <$> userAnswer !! channel) in
            let correctValue := BudgetPractice64.correctValueOf correctAnswer channel in
            BudgetPractice64.channelMessage Number_toString userValue correctValue
              (Math_abs (Binary64.sub userValue correctValue)))
    else None.
Proof.
  unfold BudgetPractice64.evaluateAllocation. cbn [channelFeedback].
  rewrite (key_loop_lookup
             (BudgetPractice64.visitChannel Number_toString userAnswer correctAnswer)
             feedbackAcc
             (fun channel =>
                let userValue := or_zero (Fin <$> userAnswer !! channel) in
                let correctValue :=
                  BudgetPractice64.correctValueOf correctAnswer channel in
                BudgetPractice64.channelMessage Number_toString userValue correctValue
                  (Math_abs (Binary64.sub userValue correctValue))))
    by reflexivity.
  reflexivity.
Qed.

(** The message only reads the user value through the comparison with the
    correct value. *)
Lemma channelMessage_proper64 (x x' correctValue deviation : number) :
  x ≡ x' ->
  BudgetPractice64.channelMessage Number_toString x correctValue deviation
  = BudgetPractice64.channelMessage Number_toString x' correctValue deviation.
Proof.
  intros H. unfold BudgetPractice64.channelMessage.
  now rewrite (gt_proper x x' correctValue correctValue H (reflexivity _)).
Qed.

Lemma lt_Fin_bool (a b : Q) : lt (Fin a) (Fin b) = Qlt_bool a b.
Proof.
  rewrite <- gt_Fin_bool. unfold lt, gt. cbn [compare].
  rewrite <- (Qcompare_antisym a b). now destruct (a ?= b).
Qed.

(** Below [10^21], [toFixed(0)] prints the rounded digits. *)
Lemma toFixed0_digits (q : Q) :
  0 <= q -> q <= 10 ->
  BudgetPractice64.toFixed0 Number_toString (Fin q)
  = AllocationSpec64.roundedDigits (Fin q).
Proof.
  intros Hlo Hhi. unfold BudgetPractice64.toFixed0, AllocationSpec64.roundedDigits.
  rewrite (proj2 (Qle_bool_iff 0 q) Hlo).
  assert (Hbig : Qle_bool (inject_Z (10 ^ 21)) q = false).
  { apply not_true_iff_false. rewrite Qle_bool_iff. intros Hbig.
    assert (H21 : 11 <= inject_Z (10 ^ 21)) by (vm_compute; discriminate).
    lra. }
  now rewrite Hbig.
Qed.

(** The spec's bands, read on the deviation the callback computes. *)
Lemma channelMessage_feedback64 (userValue correctValue : Q) :
  BudgetPractice64.channelMessage Number_toString (Fin userValue) (Fin correctValue)
    (Math_abs (Binary64.sub (Fin userValue) (Fin correctValue)))
  = AllocationSpec64.feedback Number_toString userValue correctValue.
Proof.
  unfold BudgetPractice64.channelMessage, AllocationSpec64.feedback.
  rewrite gt_Fin_bool.
  set (d := Math_abs (Binary64.sub (Fin userValue) (Fin correctValue))).
  assert (Hd : lt d (Fin 0) = false).
  { subst d. destruct (Binary64.sub (Fin userValue) (Fin correctValue)) as [q| | |];
      try reflexivity.
    unfold lt. cbn [Math_abs compare]. pose proof (Qabs_nonneg q).
    destruct (Qabs q ?= 0) eqn:Hc; try reflexivity. apply Qlt_alt in Hc. lra. }
  clearbody d. destruct d as [q| | |]; try discriminate.
  - assert (Hq : 0 <= q).
    { revert Hd. unfold lt. cbn [compare]. destruct (q ?= 0) eqn:Hc; try discriminate.
      - apply Qeq_alt in Hc. lra.
      - apply Qgt_alt in Hc. lra. }
    clear Hd. rewrite strict_eq_Fin_bool, !le_Fin_bool.
    rewrite !lt_Fin_bool.
    destruct (Qeq_bool q 0) eqn:Hzero; [reflexivity |].
    assert (Hpos : Qlt_bool 0 q = true).
    { apply Qlt_bool_iff. apply Qeq_bool_neq in Hzero.
      apply Qle_lteq in Hq as [Hq | Hq]; [exact Hq | now symmetry in Hq]. }
    rewrite Hpos. cbn [andb].
    destruct (Qle_bool q 5) eqn:H5; [reflexivity |].
    assert (Hgt5 : Qlt_bool 5 q = true) by (unfold Qlt_bool; now rewrite H5).
    rewrite Hgt5. cbn [andb].
    destruct (Qle_bool q 10) eqn:H10.
    + apply Qle_bool_iff in H10. rewrite (toFixed0_digits q Hq H10).
      now destruct (Qlt_bool correctValue userValue).
    + now destruct (Qlt_bool correctValue userValue).
  - now destruct (Qlt_bool correctValue userValue).
  - now destruct (Qlt_bool correctValue userValue).
Qed.

Lemma channelFeedback_feedback64 (channel : string) (correctValue : Q) :
  getProperty correctAnswer channel = Some correctValue ->
  channelFeedback
    (BudgetPractice64.evaluateAllocation Number_toString userAnswer correctAnswer)
    !! channel
  = Some (AllocationSpec64.feedback Number_toString
            (default 0 (userAnswer !! channel)) correctValue).
Proof.
  intros Hkey. rewrite channelFeedback_lookup64.
  rewrite decide_True by (eapply getProperty_elem, Hkey).
  unfold BudgetPractice64.correctValueOf. rewrite Hkey. cbv zeta. f_equal.
  rewrite <- channelMessage_feedback64.
  pose proof (or_zero_userValue channel) as Hu.
  unfold AllocationSpec64.userValue in Hu.
  rewrite (channelMessage_proper64 _ _ _ _ Hu). f_equal.
  unfold Binary64.sub. f_equal.
  apply fround_proper, sub_proper; [exact Hu | reflexivity].
Qed.

(** A value submitted for a channel that is not in the answer key is not
    read. *)
Lemma evaluateAllocation_extra_channel64 (extra : string) (value : Q) :
  extra ∉ correctAnswer.*1 ->
  BudgetPractice64.evaluateAllocation Number_toString
    (<[extra := value]> userAnswer) correctAnswer
  = BudgetPractice64.evaluateAllocation Number_toString userAnswer correctAnswer.
Proof.
  intros Hextra. unfold BudgetPractice64.evaluateAllocation.
  assert (Hloop : forall l acc,
            extra ∉ l ->
            foldl (BudgetPractice64.visitChannel Number_toString
                     (<[extra := value]> userAnswer) correctAnswer) acc l
            = foldl (BudgetPractice64.visitChannel Number_toString
                       userAnswer correctAnswer) acc l).
  { induction l as [|channel l IH]; intros acc Hl; [reflexivity |].
    apply not_elem_of_cons in Hl as [Hne Hl]. cbn [foldl]. rewrite (IH _ Hl).
    unfold BudgetPractice64.visitChannel.
    now rewrite lookup_insert_ne by exact Hne. }
  now rewrite Hloop.
Qed.

End Allocation64.

(** C1.  On doubles, the score returned by [evaluateAllocation] is
    [max(0, round(100 - avgDeviation * 2))], where [avgDeviation] is the
    sum, in the order of the channels of the answer key, of
    [|userValue - correctValue|] (a channel absent from the user's map
    counting as 0) divided by the number of those channels, every
    operation rounded to a double; a value submitted for a channel outside
    the answer key changes nothing; for the answer key 50/30/20 and the
    submission 60/25/15 the score is 87; for the answer key 40/35/15/10 and
    the submission 73.3/0.9/19.2/6.6 the score is 62. *)
Theorem evaluateAllocation_score_formula :
  (forall (Number_toString : Q -> string) (userAnswer : gmap string Q)
          (answerKey : list (string * Q)),
     BudgetPractice.score
       (BudgetPractice64.evaluateAllocation Number_toString userAnswer answerKey)
     = AllocationSpec64.score userAnswer answerKey)
  /\ (forall (Number_toString : Q -> string) (userAnswer : gmap string Q)
             (answerKey : list (string * Q)) (extra : string) (value : Q),
        extra ∉ answerKey.*1 ->
        BudgetPractice64.evaluateAllocation Number_toString
          (<[extra := value]> userAnswer) answerKey
        = BudgetPractice64.evaluateAllocation Number_toString userAnswer answerKey)
  /\ (forall Number_toString : Q -> string,
        BudgetPractice.score
          (BudgetPractice64.evaluateAllocation Number_toString
             Cases.userAnswer2 Cases64.answerKey1)
        = Fin 87)
  /\ (forall Number_toString : Q -> string,
        BudgetPractice.score
          (BudgetPractice64.evaluateAllocation Number_toString
             Cases64.userAnswerB2B Cases64.answerKeyB2B)
        = Fin 62).
Proof.
  split; [| split; [| split]].
  - intros Number_toString userAnswer answerKey. apply evaluateAllocation_score64.
  - intros Number_toString userAnswer answerKey extra value.
    apply evaluateAllocation_extra_channel64.
  - intros Number_toString. vm_compute. reflexivity.
  - intros Number_toString. vm_compute. reflexivity.
Qed.

(** A fourth channel added to the submission of case 2. *)
Lemma evaluateAllocation_score_formula_witness :
  BudgetPractice64.evaluateAllocation Cases64.noLargeNumber
    (<["Billboards" := 40]> Cases.userAnswer2) Cases64.answerKey1
  = BudgetPractice64.evaluateAllocation Cases64.noLargeNumber
      Cases.userAnswer2 Cases64.answerKey1.
Proof.
  apply (proj1 (proj2 evaluateAllocation_score_formula)
           Cases64.noLargeNumber Cases.userAnswer2 Cases64.answerKey1
           "Billboards" 40).
  apply (bool_decide_unpack _). vm_compute. exact I.
Defined.

(** C3.  The message is not always the band of the returned score.  For
    the answer key 50/50 and the submission 55.25/44.75, every value of
    which is a double and which sums to 100, the score before rounding is
    89.5: [evaluateAllocation] picks the message of the band [75, 90) and
    returns the score 90, whose band is the one of 90 and above. *)
Theorem message_not_band_of_returned_score :
  forall Number_toString : Q -> string,
    let result :=
      BudgetPractice64.evaluateAllocation Number_toString
        Cases.userAnswerHalf Cases64.answerKeyHalf in
    BudgetPractice.score result = Fin 90
    /\ BudgetPractice.messages result
       = ["Good job! A few tweaks could improve efficiency."]
    /\ AllocationSpec.bandMessage (BudgetPractice.score result)
       = "Excellent work! Your allocation is nearly optimal."
    /\ BudgetPractice.messages result
       <> [AllocationSpec.bandMessage (BudgetPractice.score result)].
Proof.
  intros Number_toString. vm_compute.
  split; [reflexivity |]. split; [reflexivity |]. split; [reflexivity |].
  discriminate.
Qed.

(** C6.  On doubles, for every channel of the answer key, the feedback
    string stored by [evaluateAllocation] is the one of the band of the
    computed deviation, the double nearest to [userValue - correctValue]
    without its sign: 0, (0, 5], (5, 10] with the direction and the rounded
    deviation, and above 10 with the direction, the deviation as
    [toFixed(0)] prints it and the rationale. *)
Theorem channelFeedback_bands :
  forall (Number_toString : Q -> string) (userAnswer : gmap string Q)
         (answerKey : list (string * Q)) (channel : string) (correctValue : Q),
    getProperty answerKey channel = Some correctValue ->
    BudgetPractice.channelFeedback
      (BudgetPractice64.evaluateAllocation Number_toString userAnswer answerKey)
      !! channel
    = Some (AllocationSpec64.feedback Number_toString
              (default 0 (userAnswer !! channel)) correctValue).
Proof.
  intros Number_toString userAnswer answerKey channel correctValue Hkey.
  now apply channelFeedback_feedback64.
Qed.

(** The channel of the third seeded scenario for which 4.999999999999999
    is submitted: the computed deviation is 10. *)
Lemma channelFeedback_bands_witness :
  BudgetPractice.channelFeedback
    (BudgetPractice64.evaluateAllocation Cases64.noLargeNumber
       Cases64.userAnswerUnder5 Cases64.answerKeyB2B)
    !! "Content Marketing"
  = Some "Consider increasing by about 10%.".
Proof.
  exact (channelFeedback_bands Cases64.noLargeNumber Cases64.userAnswerUnder5
           Cases64.answerKeyB2B "Content Marketing" 15 eq_refl).
Defined.

Section AllocationScore.

Import BudgetPractice.

Variables userAnswer answerKey : gmap string Q.



(** Whatever the order in which the channels are visited, the loop ends
    with the same total. *)
Lemma totalDeviation_any_order (l : list (string * Q)) :
  l ≡ₚ map_to_list answerKey ->
  exists t,
    totalDeviation
      (foldl (visitChannel userAnswer)
         {| totalDeviation := Fin 0; feedbackAcc := ∅ |} l) = Fin t
    /\ t == AllocationSpec.totalDeviation userAnswer answerKey.
Proof.
  intros Hperm.
  destruct (totalDeviation_foldl userAnswer l
              {| totalDeviation := Fin 0; feedbackAcc := ∅ |} 0 eq_refl)
    as (t & Ht & Hsum).
  exists t. split; [exact Ht |].
  rewrite Hsum, (sumQ_fmap_Permutation _ _ _ Hperm).
  unfold AllocationSpec.totalDeviation. ring.
Qed.



End AllocationScore.

(** ** The projection evaluator *)

Section Deviation.

Import ProjectionBuilder.

Lemma Math_abs_div (x y : number) :
  Math_abs (div x y) ≡ div (Math_abs x) (Math_abs y).
Proof.
  destruct x as [a| | |], y as [b| | |]; cbn [div Math_abs]; try reflexivity.
  - assert (Hb : Qeq_bool (Qabs b) 0 = Qeq_bool b 0).
    { apply eq_true_iff_eq. rewrite !Qeq_bool_iff. split; intros H.
      - destruct (Qlt_le_dec b 0) as [Hneg | Hpos];
          [rewrite Qabs_neg in H by lra | rewrite Qabs_pos in H by lra]; lra.
      - now rewrite H. }
    rewrite Hb. destruct (Qeq_bool b 0) eqn:Hzero.
    + destruct (a ?= 0) eqn:Ha.
      * apply Qeq_alt in Ha.
        assert (Hc : (Qabs a ?= 0) = Eq) by (apply Qeq_alt; now rewrite Ha).
        now rewrite Hc.
      * apply Qlt_alt in Ha.
        assert (Hc : (Qabs a ?= 0) = Gt).
        { apply Qgt_alt. rewrite Qabs_neg by lra. lra. }
        now rewrite Hc.
      * apply Qgt_alt in Ha.
        assert (Hc : (Qabs a ?= 0) = Gt).
        { apply Qgt_alt. rewrite Qabs_pos by lra. lra. }
        now rewrite Hc.
    + apply Fin_equiv. unfold Qdiv. now rewrite Qabs_Qmult, Qabs_Qinv.
  - assert (Hb : Qle_bool 0 (Qabs b) = true) by apply Qle_bool_iff, Qabs_nonneg.
    rewrite Hb. now destruct (Qle_bool 0 b).
  - assert (Hb : Qle_bool 0 (Qabs b) = true) by apply Qle_bool_iff, Qabs_nonneg.
    rewrite Hb. now destruct (Qle_bool 0 b).
Qed.

Lemma calculateDeviation_spec (userValue correctValue : number) :
  calculateDeviation userValue correctValue
  ≡ ProjectionSpec.deviationPercent userValue correctValue.
Proof.
  unfold calculateDeviation, ProjectionSpec.deviationPercent.
  destruct (strict_eq correctValue (Fin 0)); [reflexivity |].
  apply mul_proper; [apply Math_abs_div | reflexivity].
Qed.


(** On a deviation, the chain of tests of [evaluateAnswers] is the step
    function of the specification. *)
Lemma scoreIncrement_band (d : number) :
  lt d (Fin 0) = false -> scoreIncrement d = Fin (ProjectionSpec.band d).
Proof.
  unfold scoreIncrement, ProjectionSpec.band, strict_eq, le, lt.
  destruct d as [q| | |]; try reflexivity; try discriminate.
  cbn [compare]. rewrite <- !(Qcompare_antisym q).
  destruct (q ?= 0); try discriminate; intros _; cbn [CompOpp andb];
    try reflexivity.
  destruct (q ?= 5), (q ?= 10), (q ?= 20), (q ?= 30); reflexivity.
Qed.

End Deviation.

Section Projection.

Import ProjectionBuilder.

Variable parseFloat : string -> number.
Variable userAnswers : gmap string string.








End Projection.

(** ** The projection evaluator on doubles *)

Section InsertLoopDom.

Context {S A B : Type}.
Variable step : S -> string * A -> S.
Variable view : S -> gmap string B.
Variable value : string * A -> B.
Hypothesis view_step :
  forall s entry, view (step s entry) = <[entry.1 := value entry]> (view s).

(** The loop adds the keys it visits, and only those. *)
Lemma insert_loop_dom (l : list (string * A)) (s : S) :
  dom (view (foldl step s l)) = dom (view s) ∪ list_to_set l.*1.
Proof.
  revert s. induction l as [|entry l IH]; intros s.
  - cbn. now rewrite (right_id_L ∅ (∪)).
  - cbn [foldl fmap list_fmap list_to_set].
    rewrite IH, view_step, dom_insert_L.
    rewrite (comm_L (∪) {[entry.1]} (dom (view s))).
    now rewrite (assoc_L (∪)).
Qed.

End InsertLoopDom.

Section Deviation64.

Lemma Math_abs_div64 (x y : number) :
  Math_abs (Binary64.div x y) ≡ Binary64.div (Math_abs x) (Math_abs y).
Proof.
  unfold Binary64.div.
  etransitivity; [apply Math_abs_fround |].
  now rewrite (fround_proper _ _ (Math_abs_div x y)).
Qed.

(** The computed deviation is the formula of the specification, every
    operation rounded. *)
Lemma calculateDeviation_spec64 (userValue correctValue : number) :
  ProjectionBuilder64.calculateDeviation userValue correctValue
  = ProjectionSpec64.deviationPercent userValue correctValue.
Proof.
  unfold ProjectionBuilder64.calculateDeviation, ProjectionSpec64.deviationPercent.
  destruct (strict_eq correctValue (Fin 0)); [reflexivity |].
  unfold Binary64.mul. apply fround_proper, mul_proper; [| reflexivity].
  apply Math_abs_div64.
Qed.

Lemma mul_abs_not_negative (x : number) :
  lt (mul (Math_abs x) (Fin 100)) (Fin 0) = false.
Proof.
  destruct x as [q| | |]; try reflexivity.
  unfold lt. cbn [Math_abs mul compare]. pose proof (Qabs_nonneg q).
  destruct (Qabs q * 100 ?= 0) eqn:Hc; try reflexivity.
  apply Qlt_alt in Hc. lra.
Qed.

(** A computed deviation is never below zero. *)
Lemma calculateDeviation_not_negative64 (userValue correctValue : number) :
  lt (ProjectionBuilder64.calculateDeviation userValue correctValue) (Fin 0) = false.
Proof.
  unfold ProjectionBuilder64.calculateDeviation.
  destruct (strict_eq correctValue (Fin 0)).
  - now destruct (strict_eq userValue (Fin 0)).
  - apply fround_not_negative, mul_abs_not_negative.
Qed.

(** The division is only reached with a divisor that is not 0. *)
Lemma calculateDeviation_checked_Some (userValue correctValue : number) :
  ProjectionBuilder64.calculateDeviation_checked userValue correctValue
  = Some (ProjectionBuilder64.calculateDeviation userValue correctValue).
Proof.
  unfold ProjectionBuilder64.calculateDeviation_checked,
    ProjectionBuilder64.calculateDeviation, ProjectionBuilder64.checkedDiv.
  destruct (strict_eq correctValue (Fin 0)) eqn:Hzero; [reflexivity |].
  reflexivity.
Qed.

Lemma calculateDeviation_checked_exact_Some (userValue correctValue : number) :
  ProjectionBuilder64.calculateDeviation_checked_exact userValue correctValue
  = Some (ProjectionBuilder.calculateDeviation userValue correctValue).
Proof.
  unfold ProjectionBuilder64.calculateDeviation_checked_exact,
    ProjectionBuilder.calculateDeviation, ProjectionBuilder64.checkedDiv.
  destruct (strict_eq correctValue (Fin 0)) eqn:Hzero; [reflexivity |].
  reflexivity.
Qed.

End Deviation64.

Section Projection64.

Import ProjectionBuilder.

Variable parseFloat : string -> number.
Variable userAnswers : gmap string string.

Lemma visitMetric_results (acc : Acc) (entry : string * Q) :
  resultsAcc (ProjectionBuilder64.visitMetric parseFloat userAnswers acc entry)
  = <[entry.1 := ProjectionSpec64.metricResult parseFloat userAnswers entry]>
      (resultsAcc acc).
Proof.
  unfold ProjectionBuilder64.visitMetric, ProjectionSpec64.metricResult,
    ProjectionSpec64.metricDeviation, ProjectionSpec64.userValue.
  cbn [resultsAcc]. now rewrite calculateDeviation_spec64.
Qed.

Lemma totalScore_foldl64 (l : list (string * Q)) (acc : Acc) :
  totalScore (foldl (ProjectionBuilder64.visitMetric parseFloat userAnswers) acc l)
  = foldl
      (fun sum entry =>
         Binary64.add sum
           (Fin (ProjectionSpec.band
                   (ProjectionSpec64.metricDeviation parseFloat userAnswers entry))))
      (totalScore acc) l.
Proof.
  revert acc. induction l as [|entry l IH]; intros acc; [reflexivity |].
  cbn [foldl]. rewrite IH. unfold ProjectionBuilder64.visitMetric.
  cbn [totalScore].
  rewrite scoreIncrement_band by apply calculateDeviation_not_negative64.
  now rewrite calculateDeviation_spec64.
Qed.

(** The score is the rounded quotient of the total by the metric count. *)
Lemma evaluateAnswers_score64 (answers : list (string * Q)) :
  score (ProjectionBuilder64.evaluateAnswers parseFloat userAnswers answers)
  = ProjectionSpec64.score parseFloat userAnswers answers.
Proof.
  unfold ProjectionBuilder64.evaluateAnswers. cbn [score].
  rewrite totalScore_foldl64. cbn [totalScore].
  unfold ProjectionSpec64.score, ProjectionSpec64.totalContribution, length_number.
  now rewrite length_fmap.
Qed.

Lemma results_dom64 (answers : list (string * Q)) :
  dom (results (ProjectionBuilder64.evaluateAnswers parseFloat userAnswers answers))
  = list_to_set answers.*1.
Proof.
  unfold ProjectionBuilder64.evaluateAnswers. cbn [results].
  rewrite (insert_loop_dom _ resultsAcc _ visitMetric_results). cbn [resultsAcc].
  now rewrite dom_empty_L, (left_id_L ∅ (∪)).
Qed.

Lemma results_lookup64 (answers : list (string * Q)) (entry : string * Q) :
  NoDup answers.*1 -> entry ∈ answers ->
  results (ProjectionBuilder64.evaluateAnswers parseFloat userAnswers answers)
    !! entry.1
  = Some (ProjectionSpec64.metricResult parseFloat userAnswers entry).
Proof.
  unfold ProjectionBuilder64.evaluateAnswers. cbn [results].
  apply (insert_loop_entry _ resultsAcc _ visitMetric_results).
Qed.

End Projection64.

(** C2.  On doubles, [evaluateAnswers] reports the metrics of the answer
    key and no other; what it reports for a metric is the correct value,
    [parseFloat(userAnswers[key]) || 0], the deviation of that value from
    the correct one by the formula of the specification, and whether that
    deviation is at most 10; its score is
    [round(sum of contributions / metricCount)], the contribution of a
    metric being the step function 0→100, (0,5]→95, (5,10]→85, (10,20]→70,
    (20,30]→50, else→25 of that deviation and the sum being taken in the
    order of the answer key.  For the correct values 50, 90, 0.8, 1.8 and
    the answers 50, 90, 0.72, 1.8 the score is 93: the computed deviation
    of 0.72 from 0.8 is the double just above 10. *)
Theorem evaluateAnswers_step_average :
  (forall (parseFloat : string -> number) (userAnswers : gmap string string)
          (answers : list (string * Q)),
     dom (ProjectionBuilder.results
            (ProjectionBuilder64.evaluateAnswers parseFloat userAnswers answers))
     = list_to_set answers.*1
     /\ (NoDup answers.*1 ->
         forall entry : string * Q,
           entry ∈ answers ->
           ProjectionBuilder.results
             (ProjectionBuilder64.evaluateAnswers parseFloat userAnswers answers)
             !! entry.1
           = Some (ProjectionSpec64.metricResult parseFloat userAnswers entry))
     /\ ProjectionBuilder.score
          (ProjectionBuilder64.evaluateAnswers parseFloat userAnswers answers)
        = ProjectionSpec64.score parseFloat userAnswers answers)
  /\ ProjectionBuilder.score
       (ProjectionBuilder64.evaluateAnswers Cases64.parseFloat_decimal
          Cases64.userAnswers72 Cases64.answers3)
     = Fin 93.
Proof.
  split.
  - intros parseFloat userAnswers answers. split; [| split].
    + apply results_dom64.
    + intros Hnd entry Hin. now apply results_lookup64.
    + apply evaluateAnswers_score64.
  - vm_compute. reflexivity.
Qed.

(** The third metric of the case above: the answer 0.72 for 0.8 is
    reported as not correct. *)
Lemma evaluateAnswers_step_average_witness :
  ProjectionBuilder.isCorrect
    <$> ProjectionBuilder.results
          (ProjectionBuilder64.evaluateAnswers Cases64.parseFloat_decimal
             Cases64.userAnswers72 Cases64.answers3) !! "ROI"
  = Some false.
Proof.
  assert (Hnd : NoDup Cases64.answers3.*1).
  { apply (bool_decide_unpack _). vm_compute. exact I. }
  assert (Hin : ("ROI", Binary64.double 0.8) ∈ Cases64.answers3).
  { unfold Cases64.answers3. apply elem_of_cons. right. apply elem_of_cons. right.
    apply elem_of_cons. now left. }
  pose proof (proj1 (proj2 (proj1 evaluateAnswers_step_average
                              Cases64.parseFloat_decimal Cases64.userAnswers72
                              Cases64.answers3))
                Hnd ("ROI", Binary64.double 0.8) Hin) as Hresult.
  cbn [fst] in Hresult. rewrite Hresult. vm_compute. reflexivity.
Defined.

(** C4.  [calculateDeviation] is the deviation of the specification: 0 or
    100 when the correct value is 0, and
    [|userValue - correctValue| / |correctValue| * 100] otherwise, both with
    exact operations and with those of doubles; its division is only
    reached with a divisor that is not 0.  On doubles the quotient may
    still exceed the largest double: for the answer 1e308 and the correct
    value 1e-308 the deviation is Infinity. *)
Theorem calculateDeviation_cases :
  (forall userValue correctValue : number,
     ProjectionBuilder.calculateDeviation userValue correctValue
     ≡ ProjectionSpec.deviationPercent userValue correctValue)
  /\ (forall userValue correctValue : number,
        ProjectionBuilder64.calculateDeviation_checked_exact userValue correctValue
        = Some (ProjectionBuilder.calculateDeviation userValue correctValue))
  /\ ProjectionBuilder.calculateDeviation (Fin 0) (Fin 0) = Fin 0
  /\ (forall userValue : number,
        strict_eq userValue (Fin 0) = false ->
        ProjectionBuilder.calculateDeviation userValue (Fin 0) = Fin 100)
  /\ (forall userValue correctValue : number,
        ProjectionBuilder64.calculateDeviation userValue correctValue
        = ProjectionSpec64.deviationPercent userValue correctValue)
  /\ (forall userValue correctValue : number,
        ProjectionBuilder64.calculateDeviation_checked userValue correctValue
        = Some (ProjectionBuilder64.calculateDeviation userValue correctValue))
  /\ ProjectionBuilder64.calculateDeviation (Fin 0) (Fin 0) = Fin 0
  /\ (forall userValue : number,
        strict_eq userValue (Fin 0) = false ->
        ProjectionBuilder64.calculateDeviation userValue (Fin 0) = Fin 100)
  /\ ProjectionBuilder64.calculateDeviation
       (Fin (Binary64.double (inject_Z (10 ^ 308))))
       (Fin (Binary64.double (1 # Z.to_pos (10 ^ 308))))
     = PInf.
Proof.
  split; [exact calculateDeviation_spec |].
  split; [exact calculateDeviation_checked_exact_Some |].
  split; [reflexivity |].
  split.
  { intros userValue Hnz. unfold ProjectionBuilder.calculateDeviation.
    now rewrite Hnz. }
  split; [exact calculateDeviation_spec64 |].
  split; [exact calculateDeviation_checked_Some |].
  split; [reflexivity |].
  split.
  { intros userValue Hnz. unfold ProjectionBuilder64.calculateDeviation.
    now rewrite Hnz. }
  vm_compute. reflexivity.
Qed.

(** An answer of 3 for a correct value of 0, with exact operations and on
    doubles. *)
Lemma calculateDeviation_cases_witness :
  ProjectionBuilder.calculateDeviation (Fin 3) (Fin 0) = Fin 100
  /\ ProjectionBuilder64.calculateDeviation (Fin 3) (Fin 0) = Fin 100.
Proof.
  split.
  - exact (proj1 (proj2 (proj2 (proj2 calculateDeviation_cases))) (Fin 3) eq_refl).
  - exact (proj1 (proj2 (proj2 (proj2 (proj2 (proj2 (proj2 (proj2
             calculateDeviation_cases)))))))
             (Fin 3) eq_refl).
Defined.


(** Order facts used for the monotonicity of the scores. *)
Section Monotone.




End Monotone.

Section Perfect.

Import BudgetPractice ProjectionBuilder.






End Perfect.





Section Range.






End Range.





(** ** Further properties of the allocation evaluator *)

Section AllocationMore.

Import BudgetPractice.





End AllocationMore.

(** X1.  [evaluateAllocation] stores a feedback string for exactly the
    channels of the answer key. *)
Theorem channelFeedback_dom :
  forall userAnswer answerKey : gmap string Q,
    dom (BudgetPractice.channelFeedback
           (BudgetPractice.evaluateAllocation userAnswer answerKey))
    = dom answerKey.
Proof.
  intros userAnswer answerKey. apply set_eq. intros channel.
  rewrite !elem_of_dom, channelFeedback_lookup. apply fmap_is_Some.
Qed.





(** ** Further properties of the projection evaluator *)

Section ProjectionMore.

Import ProjectionBuilder.










End ProjectionMore.







(** ** The component of BudgetPractice.tsx *)

Section Records.

Variable parseFloat : string -> number.

(** The loop of [numericRecord] keeps every key and coerces every value. *)
Lemma numericRecord_fmap (o : gmap string string) :
  numericRecord parseFloat o = parseOrZero parseFloat <$> o.
Proof.
  apply map_eq. intros key. rewrite lookup_fmap. unfold numericRecord, Object_entries.
  apply (insert_loop_map
           (fun r entry => <[entry.1 := parseOrZero parseFloat entry.2]> r)
           (fun r => r)
           (fun entry => parseOrZero parseFloat entry.2)); reflexivity.
Qed.

End Records.

Section BudgetForm.

Import BudgetPracticeComponent.

Lemma emptyAllocations_lookup (channels : list string) (channel : string) :
  emptyAllocations channels !! channel
  = if decide (channel ∈ channels) then Some "" else None.
Proof.
  unfold emptyAllocations.
  assert (Hloop : forall (l : list string) (r : gmap string string),
            foldl (fun r c => <[c := ""]> r) r l !! channel
            = if decide (channel ∈ l) then Some "" else r !! channel).
  { induction l as [|c l IH]; intros r; cbn [foldl].
    - now rewrite decide_False by apply not_elem_of_nil.
    - rewrite IH. destruct (decide (channel ∈ l)) as [Hin | Hout].
      + now rewrite decide_True by (right; exact Hin).
      + destruct (decide (channel = c)) as [-> | Hne].
        * rewrite decide_True by left. apply lookup_insert_eq.
        * rewrite decide_False by (rewrite elem_of_cons; tauto).
          now apply lookup_insert_ne. }
  rewrite Hloop. now destruct (decide (channel ∈ channels)).
Qed.

Lemma emptyAllocations_blank (channels : list string) :
  map_Forall (fun _ value => value = "") (emptyAllocations channels).
Proof.
  intros channel value Hlookup. rewrite emptyAllocations_lookup in Hlookup.
  destruct (decide (channel ∈ channels)); congruence.
Qed.

Variable parseFloat : string -> number.
Hypothesis parseFloat_empty : parseFloat "" = NaN.

(** The total of a form whose fields are all empty is 0. *)
Lemma blank_total (l : list string) (a : Q) :
  Forall (fun value => value = "") l ->
  exists t,
    foldl (fun sum val => add sum (parseOrZero parseFloat val)) (Fin a) l = Fin t
    /\ t == a.
Proof.
  intros Hall. revert a. induction Hall as [|value l -> _ IH]; intros a; cbn [foldl].
  - exists a. split; reflexivity.
  - unfold parseOrZero at 2. rewrite parseFloat_empty. cbn [or_zero truthy add].
    destruct (IH (a + 0)) as (t & Ht & Heq). exists t. split; [exact Ht |].
    rewrite Heq. ring.
Qed.

Lemma blank_invalid (st : State) :
  map_Forall (fun _ value => value = "") (allocations st) ->
  isValid parseFloat st = false.
Proof.
  intros Hblank. unfold isValid, getTotalAllocation.
  destruct (blank_total (Object_values (allocations st)) 0) as (t & -> & Ht).
  - unfold Object_values, Object_entries. apply Forall_fmap, Forall_forall.
    intros [key value] Hin. apply elem_of_map_to_list in Hin.
    exact (Hblank key value Hin).
  - apply strict_eq_Fin_false. rewrite Ht. discriminate.
Qed.

End BudgetForm.

(** X11.  A form that was just opened by [selectScenario] or reset by
    [tryAgain] has one empty field for each channel of the scenario and is
    not valid; [validateAndSubmit] on it raises the alert and neither sends a
    progress row nor sets a feedback.  (An empty field is read as NaN by
    [parseFloat].) *)
Theorem blank_form_rejected :
  forall (parseFloat : string -> number) (userName : string)
         (scenario : BudgetScenario.t) (st : BudgetPracticeComponent.State),
    parseFloat "" = NaN ->
    let opened := BudgetPracticeComponent.selectScenario scenario st in
    let reset := BudgetPracticeComponent.tryAgain opened in
    dom (BudgetPracticeComponent.allocations opened)
    = list_to_set (BudgetScenario.channels scenario)
    /\ BudgetPracticeComponent.allocations reset
       = BudgetPracticeComponent.allocations opened
    /\ BudgetPracticeComponent.isValid parseFloat opened = false
    /\ BudgetPracticeComponent.isValid parseFloat reset = false
    /\ BudgetPracticeComponent.feedback
         (BudgetPracticeComponent.validateAndSubmit parseFloat userName opened)
       = None
    /\ BudgetPracticeComponent.progressRows
         (BudgetPracticeComponent.validateAndSubmit parseFloat userName opened)
       = BudgetPracticeComponent.progressRows st
    /\ BudgetPracticeComponent.alerts
         (BudgetPracticeComponent.validateAndSubmit parseFloat userName opened)
       = (BudgetPracticeComponent.alerts st
          ++ ["Total allocation must equal 100%"])%list.
Proof.
  intros parseFloat userName scenario st Hempty opened reset.
  assert (Hopened : BudgetPracticeComponent.isValid parseFloat opened = false).
  { apply blank_invalid; [exact Hempty |]. apply emptyAllocations_blank. }
  split; [| split; [| split; [| split]]].
  - apply set_eq. intros channel.
    rewrite elem_of_dom, elem_of_list_to_set. cbn.
    rewrite emptyAllocations_lookup.
    destruct (decide (channel ∈ BudgetScenario.channels scenario)) as [Hin | Hout].
    + split; [intros _; exact Hin | intros _; eexists; reflexivity].
    + split; [intros [x Hx]; discriminate | contradiction].
  - reflexivity.
  - exact Hopened.
  - apply blank_invalid; [exact Hempty |]. apply emptyAllocations_blank.
  - unfold BudgetPracticeComponent.validateAndSubmit.
    unfold BudgetPracticeComponent.isValid in Hopened.
    cbn [BudgetPracticeComponent.currentScenario opened
         BudgetPracticeComponent.selectScenario].
    fold opened. rewrite Hopened. repeat split.
Qed.

(** The first seeded scenario, opened. *)
Lemma blank_form_rejected_witness :
  BudgetPracticeComponent.isValid ProjectionBuilder.parseFloat_decimal
    (BudgetPracticeComponent.selectScenario ComponentCases.saasLeadGeneration
       ComponentCases.budgetInitial)
  = false.
Proof.
  apply (blank_form_rejected ProjectionBuilder.parseFloat_decimal "Ada"
           ComponentCases.saasLeadGeneration ComponentCases.budgetInitial).
  reflexivity.
Defined.

(** ** Moving to the next scenario *)

Section FindIndex.

Context {A : Type}.
Implicit Types (p : A -> bool) (l : list A).

Lemma findIndex_from_range p l (i : Z) :
  findIndex_from p l i = (-1)%Z
  \/ (i <= findIndex_from p l i < i + Z.of_nat (length l))%Z.
Proof.
  revert i. induction l as [|x l IH]; intros i; cbn [findIndex_from length].
  - now left.
  - destruct (p x); [right; lia |].
    destruct (IH (i + 1)%Z) as [-> | H]; [now left | right; lia].
Qed.

(** The element after the one found is in the array. *)
Lemma Array_at_after_found p l :
  (Array_findIndex p l <? Z.of_nat (length l) - 1)%Z = true ->
  exists x, Array_at l (Array_findIndex p l + 1) = Some x /\ x ∈ l.
Proof.
  intros Hlt. apply Z.ltb_lt in Hlt. unfold Array_findIndex in *.
  destruct (findIndex_from_range p l 0) as [Hnone | Hrange].
  - rewrite Hnone in *. unfold Array_at.
    destruct l as [|x l]; [cbn in Hlt; lia |].
    exists x. split; [reflexivity | left].
  - unfold Array_at.
    assert (Hnonneg : (findIndex_from p l 0 + 1 <? 0)%Z = false)
      by (apply Z.ltb_ge; lia).
    rewrite Hnonneg.
    destruct (lookup_lt_is_Some_2 l (Z.to_nat (findIndex_from p l 0 + 1)))
      as [x Hx]; [lia |].
    exists x. split; [exact Hx | now apply list_elem_of_lookup_2 in Hx].
Qed.

Lemma findIndex_from_none p l (i : Z) :
  Forall (fun x => p x = false) l -> findIndex_from p l i = (-1)%Z.
Proof.
  intros Hall. revert i. induction Hall as [|x l Hx _ IH]; intros i;
    cbn [findIndex_from]; [reflexivity |]. now rewrite Hx.
Qed.

(** The index of the first element that satisfies the test. *)
Lemma findIndex_from_first p l (i : Z) (k : nat) (x : A) :
  l !! k = Some x -> p x = true ->
  (forall j y, (j < k)%nat -> l !! j = Some y -> p y = false) ->
  findIndex_from p l i = (i + Z.of_nat k)%Z.
Proof.
  revert i k. induction l as [|y l IH]; intros i k Hk Hx Hbefore;
    [discriminate |].
  cbn [findIndex_from]. destruct k as [|k].
  - injection Hk as ->. rewrite Hx. lia.
  - rewrite (Hbefore 0%nat y) by (lia || reflexivity).
    rewrite (IH (i + 1)%Z k Hk Hx); [lia |].
    intros j z Hj Hz. apply (Hbefore (S j) z); [lia | exact Hz].
Qed.

(** With distinct keys, the element of a key is found where it is. *)
Lemma findIndex_unique {K} `{EqDecision K} (key : A -> K) l (k : nat) (x : A) :
  NoDup (key <$> l) -> l !! k = Some x ->
  Array_findIndex (fun s => bool_decide (key s = key x)) l = Z.of_nat k.
Proof.
  intros Hnodup Hk. unfold Array_findIndex.
  rewrite (findIndex_from_first _ l 0 k x Hk); [lia | now apply bool_decide_eq_true |].
  intros j y Hj Hy. apply bool_decide_eq_false. intros Heq.
  assert (Hjk : j = k); [| lia].
  apply (NoDup_lookup (key <$> l) j k (key x)); [exact Hnodup | |].
  - now rewrite list_lookup_fmap, Hy, <- Heq.
  - now rewrite list_lookup_fmap, Hk.
Qed.

End FindIndex.

(** X13.  [nextScenario] never reads past the end of the loaded scenarios
    (it never applies [selectScenario] to [undefined]): in both components it
    either leaves the state as it is or opens one of the loaded scenarios. *)
Theorem nextScenario_stays_in_list :
  (forall st : BudgetPracticeComponent.State,
     exists st',
       BudgetPracticeComponent.nextScenario st = Some st'
       /\ (st' = st
           \/ exists scenario,
                scenario ∈ BudgetPracticeComponent.scenarios st
                /\ st' = BudgetPracticeComponent.selectScenario scenario st))
  /\ (forall st : ProjectionBuilderComponent.State,
        exists st',
          ProjectionBuilderComponent.nextScenario st = Some st'
          /\ (st' = st
              \/ exists scenario,
                   scenario ∈ ProjectionBuilderComponent.scenarios st
                   /\ st' = ProjectionBuilderComponent.selectScenario scenario st)).
Proof.
  split; intros st.
  - unfold BudgetPracticeComponent.nextScenario,
      BudgetPracticeComponent.currentIndex.
    destruct (_ <? _)%Z eqn:Hlt; [| eexists; split; [reflexivity | now left]].
    destruct (Array_at_after_found _ _ Hlt) as (scenario & -> & Hin).
    eexists. split; [reflexivity |]. right. now exists scenario.
  - unfold ProjectionBuilderComponent.nextScenario,
      ProjectionBuilderComponent.currentIndex.
    destruct (_ <? _)%Z eqn:Hlt; [| eexists; split; [reflexivity | now left]].
    destruct (Array_at_after_found _ _ Hlt) as (scenario & -> & Hin).
    eexists. split; [reflexivity |]. right. now exists scenario.
Qed.

(** The scenario after the current one, with distinct ids. *)
Lemma nextScenario_at :
  forall (st : BudgetPracticeComponent.State) (k : nat) (current : BudgetScenario.t),
    NoDup (BudgetScenario.id <$> BudgetPracticeComponent.scenarios st) ->
    BudgetPracticeComponent.scenarios st !! k = Some current ->
    BudgetPracticeComponent.currentScenario st = Some current ->
    (forall next,
       BudgetPracticeComponent.scenarios st !! S k = Some next ->
       BudgetPracticeComponent.nextScenario st
       = Some (BudgetPracticeComponent.selectScenario next st)
       /\ BudgetPracticeComponent.attemptNumber
            (BudgetPracticeComponent.selectScenario next st) = 1%nat
       /\ BudgetPracticeComponent.feedback
            (BudgetPracticeComponent.selectScenario next st) = None)
    /\ (length (BudgetPracticeComponent.scenarios st) = S k ->
        BudgetPracticeComponent.nextScenario st = Some st).
Proof.
  intros st k current Hnodup Hk Hcurrent.
  assert (Hindex : BudgetPracticeComponent.currentIndex st = Z.of_nat k).
  { unfold BudgetPracticeComponent.currentIndex. rewrite Hcurrent.
    now apply (findIndex_unique BudgetScenario.id). }
  unfold BudgetPracticeComponent.nextScenario. rewrite Hindex. split.
  - intros next Hnext.
    assert (Hlen : (S k < length (BudgetPracticeComponent.scenarios st))%nat)
      by (apply lookup_lt_is_Some; now exists next).
    assert (Hlt : (Z.of_nat k
                   <? Z.of_nat (length (BudgetPracticeComponent.scenarios st)) - 1)%Z
                  = true) by (apply Z.ltb_lt; lia).
    rewrite Hlt. unfold Array_at.
    assert (Hnonneg : (Z.of_nat k + 1 <? 0)%Z = false) by (apply Z.ltb_ge; lia).
    rewrite Hnonneg.
    replace (Z.to_nat (Z.of_nat k + 1)) with (S k) by lia.
    rewrite Hnext. repeat split.
  - intros Hlen. rewrite Hlen.
    assert (Hge : (Z.of_nat k <? Z.of_nat (S k) - 1)%Z = false)
      by (apply Z.ltb_ge; lia).
    now rewrite Hge.
Qed.

(** X14.  With distinct scenario ids and the current scenario at position
    [k] of the loaded scenarios, [nextScenario] opens the scenario at position
    [k + 1] with an empty form and the attempt number 1, and does nothing
    when the current scenario is the last one. *)
Theorem nextScenario_advances :
  forall (st : BudgetPracticeComponent.State) (k : nat) (current : BudgetScenario.t),
    NoDup (BudgetScenario.id <$> BudgetPracticeComponent.scenarios st) ->
    BudgetPracticeComponent.scenarios st !! k = Some current ->
    BudgetPracticeComponent.currentScenario st = Some current ->
    (forall next,
       BudgetPracticeComponent.scenarios st !! S k = Some next ->
       BudgetPracticeComponent.nextScenario st
       = Some (BudgetPracticeComponent.selectScenario next st)
       /\ BudgetPracticeComponent.attemptNumber
            (BudgetPracticeComponent.selectScenario next st) = 1%nat
       /\ BudgetPracticeComponent.feedback
            (BudgetPracticeComponent.selectScenario next st) = None)
    /\ (length (BudgetPracticeComponent.scenarios st) = S k ->
        BudgetPracticeComponent.nextScenario st = Some st).
Proof.
  exact nextScenario_at.
Qed.

(** From the first of the two loaded scenarios to the second. *)
Lemma nextScenario_advances_witness :
  BudgetPracticeComponent.nextScenario ComponentCases.budgetLoaded
  = Some (BudgetPracticeComponent.selectScenario ComponentCases.productLaunch
            ComponentCases.budgetLoaded).
Proof.
  apply (proj1 (nextScenario_advances ComponentCases.budgetLoaded 0
                  ComponentCases.saasLeadGeneration
                  ltac:(vm_compute; repeat constructor;
                        rewrite ?list_elem_of_In; cbn; intuition discriminate)
                  eq_refl eq_refl)
           ComponentCases.productLaunch eq_refl).
Defined.

(** X15.  When no loaded scenario has the id of the current scenario (or
    there is no current scenario), [findIndex] answers -1 and [nextScenario]
    opens the first loaded scenario; with no scenario loaded it does
    nothing. *)
Theorem nextScenario_not_found :
  forall st : BudgetPracticeComponent.State,
    Forall
      (fun s =>
         match BudgetPracticeComponent.currentScenario st with
         | Some current => BudgetScenario.id s <> BudgetScenario.id current
         | None => True
         end)
      (BudgetPracticeComponent.scenarios st) ->
    BudgetPracticeComponent.nextScenario st
    = Some match BudgetPracticeComponent.scenarios st with
           | first :: _ => BudgetPracticeComponent.selectScenario first st
           | [] => st
           end.
Proof.
  intros st Hall.
  assert (Hindex : BudgetPracticeComponent.currentIndex st = (-1)%Z).
  { unfold BudgetPracticeComponent.currentIndex, Array_findIndex.
    apply findIndex_from_none. eapply Forall_impl; [exact Hall |].
    intros s Hs. cbv beta in *.
    destruct (BudgetPracticeComponent.currentScenario st); [| reflexivity].
    now apply bool_decide_eq_false. }
  unfold BudgetPracticeComponent.nextScenario. rewrite Hindex.
  destruct (BudgetPracticeComponent.scenarios st) as [|first rest];
    [reflexivity |].
  cbn [length]. assert (Hlt : (-1 <? Z.of_nat (S (length rest)) - 1)%Z = true)
    by (apply Z.ltb_lt; lia).
  rewrite Hlt. reflexivity.
Qed.

(** Two loaded scenarios and no current one. *)
Lemma nextScenario_not_found_witness :
  BudgetPracticeComponent.nextScenario ComponentCases.budgetOrphan
  = Some (BudgetPracticeComponent.selectScenario ComponentCases.saasLeadGeneration
            ComponentCases.budgetOrphan).
Proof.
  apply (nextScenario_not_found ComponentCases.budgetOrphan).
  repeat constructor.
Defined.

(** ** The component of ProjectionBuilder.tsx *)

Section ProjectionSession.

Import ProjectionBuilderComponent.

Variable parseFloat : string -> number.
Variable userName : string.

(** What one event does to the counters and to the rows sent. *)
Lemma handle_step (scenario : ProjectionScenario.t) (st : State) (e : Event) :
  currentScenario st = Some scenario ->
  currentScenario (handle parseFloat userName st e) = Some scenario
  /\ attemptNumber (handle parseFloat userName st e)
     = (attemptNumber st + (if isTryAgain e then 1 else 0))%nat
  /\ (failedAttempts st <= failedAttempts (handle parseFloat userName st e)
      <= failedAttempts st + (if isSubmit e then 1 else 0))%nat
  /\ exists rows,
       progressRows (handle parseFloat userName st e)
       = (progressRows st ++ rows)%list
       /\ length rows = (if isSubmit e then 1 else 0)%nat
       /\ Forall
            (fun row =>
               UserProgress.user_name row = userName
               /\ UserProgress.scenario_type row = projection
               /\ UserProgress.scenario_id row = ProjectionScenario.id scenario
               /\ UserProgress.attempt_number row = attemptNumber st)
            rows.
Proof.
  intros Hcurrent. destruct e; cbn [handle isTryAgain isSubmit].
  - unfold evaluateAnswers. rewrite Hcurrent.
    cbn [currentScenario attemptNumber failedAttempts progressRows].
    split; [reflexivity |]. split; [lia |]. split.
    + destruct (lt _ (Fin 70)); lia.
    + eexists [_]. split; [reflexivity |]. split; [reflexivity |].
      constructor; [| constructor]. cbn. repeat split.
  - cbn [tryAgain currentScenario attemptNumber failedAttempts progressRows].
    split; [exact Hcurrent |]. split; [lia |]. split; [lia |].
    exists (@nil UserProgress.t).
    split; [now rewrite app_nil_r |]. split; [reflexivity | constructor].
  - cbn [toggleHint currentScenario attemptNumber failedAttempts progressRows].
    split; [exact Hcurrent |]. split; [lia |]. split; [lia |].
    exists (@nil UserProgress.t).
    split; [now rewrite app_nil_r |]. split; [reflexivity | constructor].
  - cbn [setUserAnswer currentScenario attemptNumber failedAttempts progressRows].
    split; [exact Hcurrent |]. split; [lia |]. split; [lia |].
    exists (@nil UserProgress.t).
    split; [now rewrite app_nil_r |]. split; [reflexivity | constructor].
Qed.

Lemma count_cons (p : Event -> bool) (e : Event) (events : list Event) :
  length (List.filter p (e :: events))
  = ((if p e then 1 else 0) + length (List.filter p events))%nat.
Proof. cbn [List.filter]. now destruct (p e). Qed.

(** What a run of events keeps and counts, from any state with a current
    scenario. *)
Lemma session_invariant (scenario : ProjectionScenario.t) (events : list Event)
    (st : State) :
  currentScenario st = Some scenario ->
  currentScenario (foldl (handle parseFloat userName) st events) = Some scenario
  /\ attemptNumber (foldl (handle parseFloat userName) st events)
     = (attemptNumber st + retries events)%nat
  /\ (failedAttempts st
      <= failedAttempts (foldl (handle parseFloat userName) st events)
      <= failedAttempts st + submissions events)%nat
  /\ exists rows,
       progressRows (foldl (handle parseFloat userName) st events)
       = (progressRows st ++ rows)%list
       /\ length rows = submissions events
       /\ Forall
            (fun row =>
               UserProgress.user_name row = userName
               /\ UserProgress.scenario_type row = projection
               /\ UserProgress.scenario_id row = ProjectionScenario.id scenario
               /\ (attemptNumber st <= UserProgress.attempt_number row
                   <= attemptNumber (foldl (handle parseFloat userName) st events))%nat)
            rows.
Proof.
  revert st. induction events as [|e events IH]; intros st Hcurrent.
  - cbn [foldl]. unfold retries, submissions. cbn [List.filter length].
    split; [exact Hcurrent |]. split; [lia |]. split; [lia |].
    exists (@nil UserProgress.t).
    split; [now rewrite app_nil_r |]. split; [reflexivity | constructor].
  - cbn [foldl]. unfold retries, submissions. rewrite !count_cons.
    destruct (handle_step scenario st e Hcurrent)
      as (Hc1 & Hattempt1 & Hfailed1 & rows1 & Hrows1 & Hlen1 & Hall1).
    destruct (IH _ Hc1) as (Hc & Hattempt & Hfailed & rows & Hrows & Hlen & Hall).
    unfold retries, submissions in *.
    split; [exact Hc |]. split; [lia |]. split; [lia |].
    exists (rows1 ++ rows)%list. split; [| split].
    + rewrite Hrows, Hrows1. now rewrite <- app_assoc.
    + rewrite length_app. lia.
    + apply Forall_app. split.
      * eapply Forall_impl; [exact Hall1 |]. cbv beta.
        intros row (Hname & Htype & Hid & Hnum). repeat split; try assumption; lia.
      * eapply Forall_impl; [exact Hall |]. cbv beta.
        intros row (Hname & Htype & Hid & Hnum). repeat split; try assumption; lia.
Qed.

End ProjectionSession.

(** X16.  After a scenario was opened, whatever the user does next (submit,
    try again, toggle a hint, type an answer): the scenario stays current; the
    attempt number is 1 plus the number of uses of "Try Again"; every
    submission sends one progress row, with the user's name, the type
    [projection], the id of the scenario and an attempt number between 1 and
    the current one; the count of failed attempts never exceeds the number
    of submissions, so the hints are offered only after three submissions at
    least. *)
Theorem projection_session :
  forall (parseFloat : string -> number) (userName : string)
         (scenario : ProjectionScenario.t) (st : ProjectionBuilderComponent.State)
         (events : list ProjectionBuilderComponent.Event),
    let final :=
      foldl (ProjectionBuilderComponent.handle parseFloat userName)
        (ProjectionBuilderComponent.selectScenario scenario st) events in
    ProjectionBuilderComponent.currentScenario final = Some scenario
    /\ ProjectionBuilderComponent.attemptNumber final
       = (1 + ProjectionBuilderComponent.retries events)%nat
    /\ (ProjectionBuilderComponent.failedAttempts final
        <= ProjectionBuilderComponent.submissions events)%nat
    /\ (ProjectionBuilderComponent.canShowHints final = true ->
        (3 <= ProjectionBuilderComponent.submissions events)%nat)
    /\ exists rows,
         ProjectionBuilderComponent.progressRows final
         = (ProjectionBuilderComponent.progressRows st ++ rows)%list
         /\ length rows = ProjectionBuilderComponent.submissions events
         /\ Forall
              (fun row =>
                 UserProgress.user_name row = userName
                 /\ UserProgress.scenario_type row = projection
                 /\ UserProgress.scenario_id row = ProjectionScenario.id scenario
                 /\ (1 <= UserProgress.attempt_number row
                     <= ProjectionBuilderComponent.attemptNumber final)%nat)
              rows.
Proof.
  intros parseFloat userName scenario st events final.
  destruct (session_invariant parseFloat userName scenario events
              (ProjectionBuilderComponent.selectScenario scenario st) eq_refl)
    as (Hc & Hattempt & Hfailed & rows & Hrows & Hlen & Hall).
  fold final in Hc, Hattempt, Hfailed, Hrows, Hall.
  cbn [ProjectionBuilderComponent.selectScenario
       ProjectionBuilderComponent.attemptNumber
       ProjectionBuilderComponent.failedAttempts
       ProjectionBuilderComponent.progressRows] in Hattempt, Hfailed, Hrows, Hall.
  split; [exact Hc |]. split; [exact Hattempt |]. split; [lia |]. split.
  - unfold ProjectionBuilderComponent.canShowHints. intros Hshow.
    apply Nat.leb_le in Hshow. lia.
  - exists rows. repeat split; assumption.
Qed.

(** Three blank submissions of the first seeded scenario unlock the hints. *)
Lemma projection_session_witness :
  (3 <= ProjectionBuilderComponent.submissions
          [ProjectionBuilderComponent.Submit; ProjectionBuilderComponent.TryAgain;
           ProjectionBuilderComponent.Submit; ProjectionBuilderComponent.TryAgain;
           ProjectionBuilderComponent.Submit])%nat.
Proof.
  apply (proj1 (proj2 (proj2 (proj2
           (projection_session ProjectionBuilder.parseFloat_decimal "Ada"
              ComponentCases.saasTrial ComponentCases.projectionInitial
              [ProjectionBuilderComponent.Submit; ProjectionBuilderComponent.TryAgain;
               ProjectionBuilderComponent.Submit; ProjectionBuilderComponent.TryAgain;
               ProjectionBuilderComponent.Submit]))))).
  vm_compute. reflexivity.
Defined.



(** X18.  [toggleHint] flips whether the hint of its metric is shown and
    leaves the hints of the other metrics, the answers, the feedback and the
    counters alone; toggling twice shows what was shown before. *)
Theorem toggleHint_flips :
  forall (key : string) (st : ProjectionBuilderComponent.State),
    ProjectionBuilderComponent.hintShown
      (ProjectionBuilderComponent.toggleHint key st) key
    = negb (ProjectionBuilderComponent.hintShown st key)
    /\ (forall other,
          other <> key ->
          ProjectionBuilderComponent.hintShown
            (ProjectionBuilderComponent.toggleHint key st) other
          = ProjectionBuilderComponent.hintShown st other)
    /\ (forall any,
          ProjectionBuilderComponent.hintShown
            (ProjectionBuilderComponent.toggleHint key
               (ProjectionBuilderComponent.toggleHint key st)) any
          = ProjectionBuilderComponent.hintShown st any)
    /\ ProjectionBuilderComponent.userAnswers
         (ProjectionBuilderComponent.toggleHint key st)
       = ProjectionBuilderComponent.userAnswers st
    /\ ProjectionBuilderComponent.failedAttempts
         (ProjectionBuilderComponent.toggleHint key st)
       = ProjectionBuilderComponent.failedAttempts st.
Proof.
  intros key st.
  assert (Hsame : forall s,
            ProjectionBuilderComponent.hintShown
              (ProjectionBuilderComponent.toggleHint key s) key
            = negb (ProjectionBuilderComponent.hintShown s key)).
  { intros s. unfold ProjectionBuilderComponent.hintShown at 1.
    cbn [ProjectionBuilderComponent.toggleHint ProjectionBuilderComponent.showHints].
    now rewrite lookup_insert_eq. }
  assert (Hother : forall s other, other <> key ->
            ProjectionBuilderComponent.hintShown
              (ProjectionBuilderComponent.toggleHint key s) other
            = ProjectionBuilderComponent.hintShown s other).
  { intros s other Hne. unfold ProjectionBuilderComponent.hintShown at 1.
    cbn [ProjectionBuilderComponent.toggleHint ProjectionBuilderComponent.showHints].
    now rewrite lookup_insert_ne by (intros Heq; apply Hne; now symmetry). }
  split; [apply Hsame |]. split; [apply Hother |]. split; [| split; reflexivity].
  intros any. destruct (decide (any = key)) as [-> | Hne].
  - rewrite !Hsame. apply negb_involutive.
  - now rewrite !Hother.
Qed.

(** The hint of CAC toggled, seen from the metric LTV. *)
Lemma toggleHint_flips_witness :
  ProjectionBuilderComponent.hintShown
    (ProjectionBuilderComponent.toggleHint "CAC" ComponentCases.projectionInitial)
    "LTV"
  = ProjectionBuilderComponent.hintShown ComponentCases.projectionInitial "LTV".
Proof.
  apply (proj1 (proj2 (toggleHint_flips "CAC" ComponentCases.projectionInitial))).
  discriminate.
Defined.



(** ** Further properties of the two evaluators and of the scenario list *)




Section ScenarioOrder.

Import BudgetPracticeComponent.

(** What [loadScenarios] leaves when the query answers a non-empty list. *)
Lemma loadScenarios_opens_first (first : BudgetScenario.t)
    (rest : list BudgetScenario.t) (st : State) :
  currentScenario (loadScenarios (Some (first :: rest)) st) = Some first
  /\ scenarios (loadScenarios (Some (first :: rest)) st) = first :: rest
  /\ allocations (loadScenarios (Some (first :: rest)) st)
     = emptyAllocations (BudgetScenario.channels first)
  /\ feedback (loadScenarios (Some (first :: rest)) st) = None
  /\ loading (loadScenarios (Some (first :: rest)) st) = false.
Proof. repeat split. Qed.

(** "Next Scenario" pressed [k] times, [None] standing for a TypeError. *)
Lemma next_presses (data : list BudgetScenario.t) (st : State) (k : nat) :
  NoDup (BudgetScenario.id <$> data) -> data <> [] ->
  exists st',
    Nat.iter k (fun state => state ≫= nextScenario)
      (Some (loadScenarios (Some data) st)) = Some st'
    /\ scenarios st' = data
    /\ currentScenario st' = data !! (k `min` (length data - 1))%nat.
Proof.
  intros Hnodup Hne. induction k as [|k IH].
  - destruct data as [|first rest]; [contradiction |].
    eexists. split; [reflexivity |]. repeat split.
  - destruct IH as (st' & Hiter & Hscenarios & Hcurrent).
    rewrite Nat.iter_succ, Hiter. cbn [mbind option_bind].
    set (j := (k `min` (length data - 1))%nat) in *.
    assert (Hlen : (0 < length data)%nat) by (destruct data; [contradiction | cbn; lia]).
    destruct (data !! j) as [current|] eqn:Hj;
      [| apply lookup_ge_None in Hj; lia].
    destruct (nextScenario_at st' j current) as [Hnext Hlast];
      [now rewrite Hscenarios | now rewrite Hscenarios | exact Hcurrent |].
    destruct (decide (S j < length data)%nat) as [Hlt | Hge].
    + destruct (lookup_lt_is_Some_2 data (S j) Hlt) as [next Hnextj].
      rewrite Hscenarios in Hnext. destruct (Hnext next Hnextj) as (-> & _ & _).
      eexists. split; [reflexivity |]. split; [exact Hscenarios |].
      cbn [selectScenario currentScenario].
      replace (S k `min` (length data - 1))%nat with (S j) by lia.
      now symmetry.
    + rewrite Hscenarios in Hlast. rewrite Hlast by lia.
      eexists. split; [reflexivity |]. split; [exact Hscenarios |].
      rewrite Hcurrent.
      replace (S k `min` (length data - 1))%nat with j by lia. now symmetry.
Qed.

End ScenarioOrder.

(** X22.  After [loadScenarios] received a non-empty list of scenarios with
    distinct ids, pressing "Next Scenario" [k] times never fails and leaves
    the [k]-th scenario of the list current, the last one once the end is
    reached: the scenarios are visited in the order they were loaded. *)
Theorem scenarios_visited_in_order :
  forall (data : list BudgetScenario.t) (st : BudgetPracticeComponent.State)
         (k : nat),
    NoDup (BudgetScenario.id <$> data) ->
    data <> [] ->
    exists st',
      Nat.iter k (fun state => state ≫= BudgetPracticeComponent.nextScenario)
        (Some (BudgetPracticeComponent.loadScenarios (Some data) st)) = Some st'
      /\ BudgetPracticeComponent.scenarios st' = data
      /\ BudgetPracticeComponent.currentScenario st'
         = data !! (k `min` (length data - 1))%nat.
Proof.
  intros data st k. apply next_presses.
Qed.

(** The two seeded scenarios and three presses: the second one is current. *)
Lemma scenarios_visited_in_order_witness :
  exists st',
    Nat.iter 3 (fun state => state ≫= BudgetPracticeComponent.nextScenario)
      (Some (BudgetPracticeComponent.loadScenarios
               (Some [ComponentCases.saasLeadGeneration; ComponentCases.productLaunch])
               ComponentCases.budgetInitial)) = Some st'
    /\ BudgetPracticeComponent.scenarios st'
       = [ComponentCases.saasLeadGeneration; ComponentCases.productLaunch]
    /\ BudgetPracticeComponent.currentScenario st'
       = Some ComponentCases.productLaunch.
Proof.
  apply (scenarios_visited_in_order
           [ComponentCases.saasLeadGeneration; ComponentCases.productLaunch]
           ComponentCases.budgetInitial 3).
  - vm_compute. repeat constructor;
      rewrite ?list_elem_of_In; cbn; intuition discriminate.
  - discriminate.
Defined.

